(** * PrometheusMetricFindQuery: the template-variable query resolver

    A shallow embedding of the class [PrometheusMetricFindQuery] of the
    Prometheus data source: the ordered classification of the query text in
    [process], the requests built by the handlers and the decoding of the
    backend's answers into [MetricFindValue]s.

    Strings are [string]s whose characters stand for code units below 256.
    The numbers of an answer are doubles ([float], with the product of
    IEEE 754), and their conversion to text is the built-in's; the instants
    of a range are the whole milliseconds of a date, and their seconds are
    integers ([Z]). *)

From Stdlib Require Import Floats ZArith Ascii String List Bool Lia DecimalString.
From stdpp Require Import base option list gmap strings.
Import ListNotations.

Local Open Scope string_scope.
Local Open Scope list_scope.

(** ** Strings *)

Abbreviation chars := list_ascii_of_string.
Abbreviation of_chars := string_of_list_ascii.

(** [Number.prototype.toString] on the whole seconds of a date and on a
    count of panels: integers far below 2^53, whose text is the decimal
    one. *)
Definition Number_toString (n : Z) : string :=
  NilZero.string_of_int (Z.to_int n).

(** [Array.prototype.join] on an array of strings. *)
Definition join (sep : string) (l : list string) : string :=
  String.concat sep l.

(** ** Regular expressions

    The backtracking matcher of ECMAScript for the pattern constructs this
    module writes: literals, character sets, sequence, alternation, the greedy
    [?], greedy [*] on a character set, capturing groups and the two
    assertions [^] and [$] (no flags). *)
Module JsRegExp.

Inductive regex : Type :=
| Eps
| Chr (c : ascii)
| Cls (p : ascii -> bool)
| Seq (r1 r2 : regex)
| Alt (r1 r2 : regex)
| Opt (r : regex)
| Rep (p : ascii -> bool)
| Grp (i : nat) (r : regex)
| Bol
| Eol.

(** [r+] on a character set. *)
Definition Rep1 (p : ascii -> bool) : regex := Seq (Cls p) (Rep p).

(** A literal run of characters. *)
Fixpoint Str (l : list ascii) : regex :=
  match l with
  | [] => Eps
  | c :: l' => Seq (Chr c) (Str l')
  end.

(** Character sets. *)
Definition in_range (lo hi : nat) (c : ascii) : bool :=
  (lo <=? nat_of_ascii c)%nat && (nat_of_ascii c <=? hi)%nat.

(** [.]: anything but a line terminator. *)
Definition dot (c : ascii) : bool :=
  negb (Nat.eqb (nat_of_ascii c) 10 || Nat.eqb (nat_of_ascii c) 13).

(** [\s]: white space and line terminators. *)
Definition space (c : ascii) : bool :=
  in_range 9 13 c || Nat.eqb (nat_of_ascii c) 32 || Nat.eqb (nat_of_ascii c) 160.

(** [[a-zA-Z_]] *)
Definition ident_start (c : ascii) : bool :=
  in_range 97 122 c || in_range 65 90 c || Nat.eqb (nat_of_ascii c) 95.

(** [[a-zA-Z0-9_]] *)
Definition ident_char (c : ascii) : bool :=
  ident_start c || in_range 48 57 c.

(** The matcher's state: the index reached, the input left there and the
    captures made so far (index 0 is kept for the whole match). *)
Record state : Type := State {
  pos : nat;
  rest : list ascii;
  caps : list (option (list ascii));
}.

Definition advance (st : state) (s' : list ascii) : state :=
  State (S (pos st)) s' (caps st).

(** The characters consumed between two states of one run. *)
Definition consumed (s s' : list ascii) : list ascii :=
  firstn (length s - length s') s.

Definition capture (i : nat) (from : state) (st : state) : state :=
  State (pos st) (rest st)
        (<[i := Some (consumed (rest from) (rest st))]> (caps st)).

(** Greedy [p*]: as many characters as possible, then one fewer, ... *)
Fixpoint rep (p : ascii -> bool) (k : state -> option state)
         (n : nat) (s : list ascii) (cs : list (option (list ascii)))
  : option state :=
  match s with
  | c :: s' =>
      if p c then
        match rep p k (S n) s' cs with
        | Some st => Some st
        | None => k (State n s cs)
        end
      else k (State n s cs)
  | [] => k (State n s cs)
  end.

(** [bt r k st]: match [r] at [st], then the continuation [k]; the first
    success in backtracking order. *)
Fixpoint bt (r : regex) (k : state -> option state) (st : state)
  : option state :=
  match r with
  | Eps => k st
  | Chr c =>
      match rest st with
      | c' :: s' => if Ascii.eqb c c' then k (advance st s') else None
      | [] => None
      end
  | Cls p =>
      match rest st with
      | c' :: s' => if p c' then k (advance st s') else None
      | [] => None
      end
  | Seq r1 r2 => bt r1 (bt r2 k) st
  | Alt r1 r2 =>
      match bt r1 k st with
      | Some st' => Some st'
      | None => bt r2 k st
      end
  | Opt r1 =>
      (* an iteration that consumes nothing is refused *)
      match bt r1 (fun st' => if Nat.eqb (pos st') (pos st) then None else k st') st with
      | Some st' => Some st'
      | None => k st
      end
  | Rep p => rep p k (pos st) (rest st) (caps st)
  | Grp i r1 => bt r1 (fun st' => k (capture i st st')) st
  | Bol => if Nat.eqb (pos st) 0 then k st else None
  | Eol => match rest st with [] => k st | _ :: _ => None end
  end.

(** The highest group number of a pattern. *)
Fixpoint groups (r : regex) : nat :=
  match r with
  | Seq r1 r2 | Alt r1 r2 => Nat.max (groups r1) (groups r2)
  | Opt r1 => groups r1
  | Grp i r1 => Nat.max i (groups r1)
  | _ => 0
  end.

(** One attempt at index [n], where [s] is the input left. *)
Definition attempt (r : regex) (n : nat) (s : list ascii)
  : option (list (option (list ascii))) :=
  match bt r Some (State n s (replicate (S (groups r)) None)) with
  | Some st => Some (<[0 := Some (consumed s (rest st))]> (caps st))
  | None => None
  end.

(** The search: the first index at which an attempt succeeds. *)
Fixpoint search (r : regex) (n : nat) (s : list ascii)
  : option (list (option (list ascii))) :=
  match attempt r n s with
  | Some m => Some m
  | None =>
      match s with
      | [] => None
      | _ :: s' => search r (S n) s'
      end
  end.

(** [RegExp.prototype.exec] from index 0: [null], or the array of the
    whole match and the groups, an absent group being [undefined]. *)
Definition exec (r : regex) (s : string) : option (list (option string)) :=
  option_map (map (option_map of_chars)) (search r 0 (chars s)).

(** [RegExp.prototype.test] *)
Definition test (r : regex) (s : string) : bool :=
  match exec r s with Some _ => true | None => false end.

End JsRegExp.

Import JsRegExp.

(** [String.prototype.match] with a pattern that has no [g] flag. *)
Definition String_match (s : string) (r : regex) : option (list (option string)) :=
  exec r s.

(** The pattern of [process], its parts set apart by blanks:
    [^  label_values\(  (?: (.+) , \s* )?  ( [a-zA-Z_] [a-zA-Z0-9_]* )  \)  \s*  $] *)
Definition labelValuesRegex : regex :=
  Seq Bol
  (Seq (Str (chars "label_values("))
  (Seq (Opt (Seq (Grp 1 (Rep1 dot)) (Seq (Chr ",") (Rep space))))
  (Seq (Grp 2 (Seq (Cls ident_start) (Rep ident_char)))
  (Seq (Chr ")")
  (Seq (Rep space) Eol))))).


(** The identifier syntax of a label, [[a-zA-Z_][a-zA-Z0-9_]*], on a whole
    string. *)
Definition is_identifier (s : string) : bool :=
  match chars s with
  | c :: l => ident_start c && forallb ident_char l
  | [] => false
  end.

(** No line terminator occurs in the string. *)
Definition one_line (s : string) : bool := forallb dot (chars s).

(** Every character is white space. *)
Definition all_blank (s : string) : bool := forallb space (chars s).

(** A group of a match array; [None] is [undefined]. *)
Definition group (m : list (option string)) (i : nat) : option string :=
  mjoin (m !! i).

(** ** Values *)

(** [MetricFindValue]: [expandable] is an optional field. *)
Record MetricFindValue : Type := {
  text : string;
  expandable : option bool;
}.

(** The reading of the data model: an item without the field is not
    expandable. *)
Definition is_expandable (v : MetricFindValue) : bool :=
  default false (expandable v).

(** A label set: the own properties of an object, in the order in which
    the object enumerates them (for label names, the order in which they
    were inserted), all of them strings. *)
Abbreviation JsObject := (list (string * string)).

(** The own property [k] of [o]: what [o.k] gives for a name that objects
    do not inherit, as [__name__]. *)
Fixpoint obj_get (o : JsObject) (k : string) : option string :=
  match o with
  | [] => None
  | (k', v) :: o' => if String.eqb k' k then Some v else obj_get o' k
  end.

(** The names every object inherits from [Object.prototype]. *)
Definition inherited (k : string) : bool :=
  existsb (String.eqb k)
    ["constructor"; "hasOwnProperty"; "isPrototypeOf"; "propertyIsEnumerable";
     "toLocaleString"; "toString"; "valueOf"; "__proto__";
     "__defineGetter__"; "__defineSetter__"; "__lookupGetter__";
     "__lookupSetter__"].

(** What a read [o[k]] can give on a label set: a string, or the function
    or object inherited under the name [k]. *)
Inductive JsValue : Type :=
| JString (s : string)
| JInherited (name : string).

(** [o[k]]: the own property if there is one, else what the object
    inherits under that name, else [undefined]. *)
Definition obj_read (o : JsObject) (k : string) : option JsValue :=
  match obj_get o k with
  | Some v => Some (JString v)
  | None => if inherited k then Some (JInherited k) else None
  end.

(** [v || ''] on what a read gives: an inherited function or object is
    truthy. *)
Definition value_or_empty (v : option JsValue) : JsValue :=
  match v with
  | Some (JString s) => JString s
  | Some (JInherited k) => JInherited k
  | None => JString ""
  end.

(** [v !== ''] *)
Definition is_not_empty_string (v : JsValue) : bool :=
  match v with
  | JString s => negb (String.eqb s "")
  | JInherited _ => true
  end.

(** The strings of a list of values, if they all are strings. *)
Fixpoint strings_of (l : list JsValue) : option (list string) :=
  match l with
  | [] => Some []
  | JString s :: l' => option_map (cons s) (strings_of l')
  | JInherited _ :: _ => None
  end.

(** [delete o[k]] *)
Definition obj_delete (o : JsObject) (k : string) : JsObject :=
  List.filter (fun kv => negb (String.eqb (fst kv) k)) o.

(** lodash's [map] on an object: the iteratee gets the value and the key. *)
Definition obj_map {B : Type} (o : JsObject) (iteratee : string -> string -> B)
  : list B :=
  List.map (fun kv => iteratee (snd kv) (fst kv)) o.

(** [v || ''] on a string that may be [undefined]. *)
Definition or_empty (v : option string) : string := default "" v.

(** The truth value of a string that may be [undefined]. *)
Definition truthy (v : option string) : bool :=
  match v with
  | Some s => negb (String.eqb s "")
  | None => false
  end.

(** lodash's [uniq]: a value is pushed on the result unless the result
    holds it already. *)
Definition uniq (array : list string) : list string :=
  fold_left
    (fun result value =>
       if existsb (String.eqb value) result then result else result ++ [value])
    array [].

(** The words of the data model for the same: every value stays at its first
    occurrence and its later occurrences go. *)
Fixpoint first_occurrences (l : list string) : list string :=
  match l with
  | [] => []
  | x :: l' =>
      x :: List.filter (fun y => negb (String.eqb y x)) (first_occurrences l')
  end.

Definition dquote : string := String "034"%char EmptyString.

(** ** The backend's answers *)

Abbreviation loc := nat.

(** A sample of an instant vector: [metric] refers to the label set, an
    object of the heap; [value] is the pair of the time in seconds, a
    double, and the sample value. *)
Record Sample : Type := {
  metric : loc;
  value : float * string;
}.

(** [data.result] of an instant query. *)
Inductive QueryPayload : Type :=
| PValue (unix_time : float) (v : option string)
| PSamples (samples : list Sample)
| POther.

(** [result.data.data], which the code reads as [any].  The series are
    only read and are given by value; the label sets of the samples are
    changed in place and are objects of the heap. *)
Inductive ResponseData : Type :=
| DAbsent
| DStrings (values : list string)
| DSeries (series : list JsObject)
| DQuery (resultType : string) (result : QueryPayload).

Abbreviation Params := (list (string * string)).

(** ** Effects *)

Inductive JsError : Type :=
| Error (message : string)
| TypeError
| SyntaxError
| Thrown (what : string).

(** How a promise settles.  [Untyped] stands for the runs in which a value
    is not of its declared type (an answer of another shape than the path
    serves, a match array without the group read from it, a label read that
    gives what every object inherits where a string is declared): there the
    code goes on with that value, and the embedding stops. *)
Inductive Promise (A : Type) : Type :=
| Resolved (a : A)
| Rejected (e : JsError)
| Untyped.
Arguments Resolved {A} a.
Arguments Rejected {A} e.
Arguments Untyped {A}.

(** The objects the answers refer to, and the requests sent so far. *)
Record World : Type := {
  heap : gmap loc JsObject;
  sent : list (string * Params);
}.

Definition Async (A : Type) : Type := World -> Promise A * World.

Definition ret {A} (a : A) : Async A := fun w => (Resolved a, w).
Definition throw {A} (e : JsError) : Async A := fun w => (Rejected e, w).
Definition untyped {A} : Async A := fun w => (Untyped, w).
Definition settle {A} (p : Promise A) : Async A := fun w => (p, w).

Definition bind {A B} (m : Async A) (f : A -> Async B) : Async B :=
  fun w =>
    match m w with
    | (Resolved a, w') => f a w'
    | (Rejected e, w') => (Rejected e, w')
    | (Untyped, w') => (Untyped, w')
    end.

Notation "'let!' x ':=' m 'in' f" := (bind m (fun x => f))
  (at level 10, x name, m at level 100, f at level 200).

(** lodash's [map] on an array with an iteratee that has effects: the
    elements in order, stopping at the first that throws. *)
Fixpoint map_array {A B} (iteratee : A -> Async B) (l : list A) : Async (list B) :=
  match l with
  | [] => ret []
  | a :: l' =>
      let! b := iteratee a in
      let! bs := map_array iteratee l' in
      ret (b :: bs)
  end.

(** lodash's [filter] on an array, likewise. *)
Fixpoint filter_array {A} (predicate : A -> Async bool) (l : list A) : Async (list A) :=
  match l with
  | [] => ret []
  | a :: l' =>
      let! keep := predicate a in
      let! rest := filter_array predicate l' in
      ret (if keep then a :: rest else rest)
  end.

(** ** Collaborators *)

Record TimeRange : Type := {
  from : Z;  (* instants in milliseconds *)
  to : Z;
}.

Record PrometheusDatasource : Type := {
  backend : string -> Params -> Promise ResponseData;
  hasLabelsMatchAPISupport : bool;
  getSeriesLabels : string -> list string -> Promise (list string);
  getTagKeys : TimeRange -> Promise (list MetricFindValue);
  getOriginalMetricName : JsObject -> string;
}.

(** [datasource.metadataRequest]: the request is sent, and the promise
    settles as the backend answers. *)
Definition metadataRequest (ds : PrometheusDatasource) (url : string)
           (params : Params) : Async ResponseData :=
  fun w => (backend ds url params,
            {| heap := heap w; sent := sent w ++ [(url, params)] |}).

(** ** The resolver *)

(** What the module imports and the sources do not show. *)
Record Imports : Type := {
  (** The patterns of the variable migration. *)
  PrometheusLabelNamesRegex : regex;
  PrometheusLabelNamesRegexWithMatch : regex;
  PrometheusMetricNamesRegex : regex;
  PrometheusQueryResultRegex : regex;
  (** [getPrometheusTime(date, roundUp)] of the language utilities: an
      instant as whole seconds. *)
  getPrometheusTime : Z -> bool -> Z;
  (** The built-in [RegExp] on patterns given at run time: [new RegExp]
      throws a [SyntaxError] on what is not a pattern. *)
  RegExp : Type;
  RegExp_new : string -> option RegExp;
  RegExp_test : RegExp -> string -> bool;
  (** The built-in conversion of a double to text, as the concatenation
      with a string applies it. *)
  NumberToString : float -> string;
}.

(** The constant [_labels] of [labelValuesQuery]: what every series gives
    under the label, or [''], the values that are [''] left out. *)
Definition seriesLabels (label : string) (series : list JsObject) : list JsValue :=
  List.filter (fun label => is_not_empty_string label)
    (List.map (fun metric => value_or_empty (obj_read metric label)) series).

Section Resolver.

Variable lib : Imports.
Variable datasource : PrometheusDatasource.

Definition labelValuesQuery (range : TimeRange) (label : string)
           (metric : option string) : Async (list MetricFindValue) :=
  let start := getPrometheusTime lib (from range) false in
  let end_ := getPrometheusTime lib (to range) true in
  let params :=
    (match metric with
     | Some m => if truthy metric then [("match[]", m)] else []
     | None => []
     end)
    ++ [("start", Number_toString start); ("end", Number_toString end_)] in
  if negb (truthy metric) || hasLabelsMatchAPISupport datasource then
    let url := "/api/v1/label/" +:+ label +:+ "/values" in
    let! result := metadataRequest datasource url params in
    match result with
    | DAbsent => ret []
    | DStrings values =>
        ret (List.map (fun value => {| text := value; expandable := None |}) values)
    | _ => untyped
    end
  else
    let url := "/api/v1/series" in
    let! result := metadataRequest datasource url params in
    match result with
    | DAbsent => ret []
    | DSeries series =>
        let _labels := seriesLabels label series in
        (* a label that is no string gives an item that is no
           [MetricFindValue], with or without [uniq] *)
        match strings_of _labels with
        | Some texts =>
            ret (List.map (fun metric => {| text := metric; expandable := Some true |})
                   (uniq texts))
        | None => untyped
        end
    | _ => untyped
    end.

Definition metricNameQuery (range : TimeRange) (metricFilterPattern : string)
  : Async (list MetricFindValue) :=
  let start := getPrometheusTime lib (from range) false in
  let end_ := getPrometheusTime lib (to range) true in
  let params := [("start", Number_toString start); ("end", Number_toString end_)] in
  let url := "/api/v1/label/__name__/values" in
  let! result := metadataRequest datasource url params in
  match result with
  | DAbsent => ret []
  | DStrings names =>
      let! matched :=
        filter_array
          (fun metricName =>
             match RegExp_new lib metricFilterPattern with
             | Some r => ret (RegExp_test lib r metricName)
             | None => throw SyntaxError
             end)
          names in
      ret (List.map
             (fun matchedMetricName =>
                {| text := matchedMetricName; expandable := Some true |})
             matched)
  | _ => untyped
  end.

(** The iteratee of the vector case.  The label set is read through the
    reference the sample holds and [__name__] is deleted from that
    object; the labels are read from it again after the deletion.
    [__name__] is not a name objects inherit, so its read is the read of
    an own property.  The time is multiplied as doubles are. *)
Definition vectorItem (metricData : Sample) : Async MetricFindValue :=
  fun w =>
    match heap w !! metric metricData with
    | None => (Rejected TypeError, w)
    | Some labels =>
        let text := or_empty (obj_get labels "__name__") in
        let labels' := obj_delete labels "__name__" in
        let w' := {| heap := <[metric metricData := labels']> (heap w);
                     sent := sent w |} in
        let text :=
          text +:+ "{"
          +:+ join "," (obj_map labels' (fun v k => k +:+ "=" +:+ dquote +:+ v +:+ dquote))
          +:+ "}" in
        let text :=
          text +:+ " " +:+ snd (value metricData) +:+ " "
          +:+ NumberToString lib (fst (value metricData) * 1000)%float in
        (Resolved {| text := text; expandable := Some true |}, w')
    end.

Definition unknownResultType (resultType : string) : string :=
  "Unknown/Unhandled result type: [" +:+ resultType +:+ "]".

Definition queryResultQuery (query : string) : Async (list MetricFindValue) :=
  let url := "/api/v1/query" in
  let params := [("query", query)] in
  let! result := metadataRequest datasource url params in
  match result with
  | DQuery resultType payload =>
      if String.eqb resultType "scalar" || String.eqb resultType "string" then
        match payload with
        | PValue _ v => ret [ {| text := or_empty v; expandable := Some false |} ]
        | _ => untyped
        end
      else if String.eqb resultType "vector" then
        match payload with
        | PSamples samples => map_array vectorItem samples
        | _ => untyped
        end
      else throw (Error (unknownResultType resultType))
  | DAbsent => throw TypeError
  | _ => untyped
  end.

Definition metricNameAndLabelsQuery (range : TimeRange) (query : string)
  : Async (list MetricFindValue) :=
  let start := getPrometheusTime lib (from range) false in
  let end_ := getPrometheusTime lib (to range) true in
  let params :=
    [("match[]", query);
     ("start", Number_toString start);
     ("end", Number_toString end_)] in
  let url := "/api/v1/series" in
  let! result := metadataRequest datasource url params in
  match result with
  | DAbsent => ret []
  | DSeries series =>
      ret (List.map
             (fun metric =>
                {| text := getOriginalMetricName datasource metric;
                   expandable := Some true |})
             series)
  | _ => untyped
  end.

Definition expressions : list string :=
  ["label_values()"; "metrics()"; "query_result()"].

(** [process]: the rules in their order, the first that matches decides.
    [this.range] is set on entry and read by the handlers, so the range is
    passed on to them. *)
Definition process (query : string) (timeRange : TimeRange)
  : Async (list MetricFindValue) :=
  let labelNamesQuery := String_match query (PrometheusLabelNamesRegex lib) in
  let labelNamesMatchQuery := String_match query (PrometheusLabelNamesRegexWithMatch lib) in
  match labelNamesMatchQuery with
  | Some m =>
      match group m 1 with
      | Some g =>
          let selector := "{__name__=~" +:+ dquote +:+ ".*" +:+ g +:+ ".*" +:+ dquote +:+ "}" in
          let! results := settle (getSeriesLabels datasource selector []) in
          ret (List.map (fun result => {| text := result; expandable := None |}) results)
      | None => untyped
      end
  | None =>
  match labelNamesQuery with
  | Some _ => settle (getTagKeys datasource timeRange)
  | None =>
  match String_match query labelValuesRegex with
  | Some m =>
      match group m 2 with
      | Some label =>
          if truthy (group m 1)
          then labelValuesQuery timeRange label (group m 1)
          else labelValuesQuery timeRange label None
      | None => untyped
      end
  | None =>
  match String_match query (PrometheusMetricNamesRegex lib) with
  | Some m =>
      match group m 1 with
      | Some pattern => metricNameQuery timeRange pattern
      | None => untyped
      end
  | None =>
  match String_match query (PrometheusQueryResultRegex lib) with
  | Some m =>
      match group m 1 with
      | Some q => queryResultQuery q
      | None => untyped
      end
  | None =>
      if negb (existsb (String.eqb query) expressions)
      then metricNameAndLabelsQuery timeRange query
      else ret []
  end end end end end.

End Resolver.

(** The window of a range as the handlers write it in the parameters. *)
Definition time_window (lib : Imports) (range : TimeRange) : Params :=
  [("start", Number_toString (getPrometheusTime lib (from range) false));
   ("end", Number_toString (getPrometheusTime lib (to range) true))].

(** The world after one more request. *)
Definition after_request (w : World) (url : string) (params : Params) : World :=
  {| heap := heap w; sent := sent w ++ [(url, params)] |}.

(** The text of an instant-vector sample in the words of the data model:
    the value of [__name__] if there is one, the other labels between
    braces as [key="value"] with commas in between, in the order of the
    object, then the sample value and the time in milliseconds: the product
    of the double with 1000, converted by the built-in. *)
Definition vector_text (lib : Imports) (labels : JsObject) (value : float * string)
  : string :=
  or_empty (obj_get labels "__name__")
  +:+ "{"
  +:+ join ","
        (List.map (fun kv => fst kv +:+ "=" +:+ dquote +:+ snd kv +:+ dquote)
           (List.filter (fun kv => negb (String.eqb (fst kv) "__name__")) labels))
  +:+ "}" +:+ " " +:+ snd value +:+ " "
  +:+ NumberToString lib (fst value * 1000)%float.

(** The label set a sample refers to in a heap (none if the reference
    dangles). *)
Definition labels_of (h : gmap loc JsObject) (s : Sample) : JsObject :=
  default [] (h !! metric s).

(** The heap once the samples have been gone through: every label set a
    sample refers to has lost [__name__]. *)
Definition strip_names (samples : list Sample) (h : gmap loc JsObject)
  : gmap loc JsObject :=
  fold_left
    (fun h s => <[metric s := obj_delete (labels_of h s) "__name__"]> h)
    samples h.

(** [part] occurs in [s]. *)
Definition contains (s part : string) : Prop :=
  exists before after, s = before +:+ part +:+ after.

(** ** What the sources leave out *)

Module VariableMigration.

(** The four patterns imported from the variable migration, which is not
    among the sources.  Each is the form the classifier names for its rule,
    anchored and open to blanks at the end as the pattern of [process] is;
    the argument of a form is not empty. *)

(** Modelled from the spec: [PrometheusLabelNamesRegex], the form
    [label_names()] without a match expression. *)
Definition PrometheusLabelNamesRegex : regex :=
  Seq Bol (Seq (Str (chars "label_names()")) (Seq (Rep space) Eol)).

(** Modelled from the spec: [PrometheusLabelNamesRegexWithMatch], the form
    [label_names(<matchExpr>)]; the group is the match expression. *)
Definition PrometheusLabelNamesRegexWithMatch : regex :=
  Seq Bol (Seq (Str (chars "label_names("))
  (Seq (Grp 1 (Rep1 dot)) (Seq (Chr ")") (Seq (Rep space) Eol)))).

(** Modelled from the spec: [PrometheusMetricNamesRegex], the form
    [metrics(<filterPattern>)]; the group is the filter. *)
Definition PrometheusMetricNamesRegex : regex :=
  Seq Bol (Seq (Str (chars "metrics("))
  (Seq (Grp 1 (Rep1 dot)) (Seq (Chr ")") (Seq (Rep space) Eol)))).

(** Modelled from the spec: [PrometheusQueryResultRegex], the form
    [query_result(<rawQuery>)]; the group is the query. *)
Definition PrometheusQueryResultRegex : regex :=
  Seq Bol (Seq (Str (chars "query_result("))
  (Seq (Grp 1 (Rep1 dot)) (Seq (Chr ")") (Seq (Rep space) Eol)))).

End VariableMigration.

Module LanguageUtils.

(** Modelled from the spec: [getPrometheusTime] of the language utilities,
    which is not among the sources.  The start of a window is floored to
    the previous whole second and its end is ceiled to the next one; the
    handlers ask for the start with [roundUp = false] and for the end with
    [roundUp = true]. *)
Definition getPrometheusTime (date : Z) (roundUp : bool) : Z :=
  if roundUp then (- ((- date) / 1000))%Z else (date / 1000)%Z.

End LanguageUtils.

(** A stand-in for the built-in [RegExp] on a fragment of the pattern
    language: literal characters, [.], [^], [$] and the postfix [*], [+]
    and [?] on one character.  A pattern outside the fragment is refused
    here, whatever JavaScript makes of it. *)
Module PatternFragment.

Definition is_meta (c : ascii) : bool :=
  existsb (Ascii.eqb c) (chars "\()[]{}|*+?").

Definition atom (c : ascii) : ascii -> bool :=
  if Ascii.eqb c "." then dot else Ascii.eqb c.

Fixpoint parse (l : list ascii) : option regex :=
  match l with
  | [] => Some Eps
  | c :: l' =>
      if is_meta c then None
      else if Ascii.eqb c "^" then option_map (Seq Bol) (parse l')
      else if Ascii.eqb c "$" then option_map (Seq Eol) (parse l')
      else
        match l' with
        | "*"%char :: l'' => option_map (Seq (Rep (atom c))) (parse l'')
        | "+"%char :: l'' => option_map (Seq (Rep1 (atom c))) (parse l'')
        | "?"%char :: l'' => option_map (Seq (Opt (Cls (atom c)))) (parse l'')
        | _ => option_map (Seq (Cls (atom c))) (parse l')
        end
  end.

Definition RegExp_new (pattern : string) : option regex := parse (chars pattern).
Definition RegExp_test (r : regex) (s : string) : bool := test r s.

End PatternFragment.

(** A stand-in for the conversion of a double to text on the doubles that
    are integers of at most 2^53 in absolute value, where the text is the
    decimal one of the integer (the shortest digits that give the double
    back are all its digits).  On the other doubles it gives the empty
    text, which JavaScript does not: it is used on the former only. *)
Module IntegralText.

Definition integer_of (f : float) : option Z :=
  match Prim2SF f with
  | S754_zero _ => Some 0%Z
  | S754_finite s m e =>
      let z := if s then Z.neg m else Z.pos m in
      if (0 <=? e)%Z then Some (z * 2 ^ e)%Z
      else if (Z.pos m mod 2 ^ (- e) =? 0)%Z then Some (z / 2 ^ (- e))%Z
      else None
  | _ => None
  end.

Definition NumberToString (f : float) : string :=
  match integer_of f with
  | Some z => if (Z.abs z <=? 2 ^ 53)%Z then Number_toString z else ""
  | None => ""
  end.

End IntegralText.

(** ** Fixtures *)

(** A data source whose backend gives one answer to every request, and
    whose other collaborators find nothing. *)
Definition answering (support : bool) (answer : Promise ResponseData)
  : PrometheusDatasource :=
  {| backend := fun _ _ => answer;
     hasLabelsMatchAPISupport := support;
     getSeriesLabels := fun _ _ => Resolved [];
     getTagKeys := fun _ => Resolved [];
     getOriginalMetricName := fun labels => or_empty (obj_get labels "__name__") |}.

(** From 10.9 s to 11.1 s. *)
Definition example_range : TimeRange := {| from := 10900; to := 11100 |}.

Definition empty_world : World := {| heap := ∅; sent := [] |}.

(** The heap of an instant vector with the one sample [up{instance="a"}]. *)
Definition up_world : World :=
  {| heap := {[ 0%nat := [("__name__", "up"); ("instance", "a")] ]}; sent := [] |}.

Definition up_vector : ResponseData :=
  DQuery "vector" (PSamples [ {| metric := 0; value := (1000%float, "1") |} ]).

Definition newline : string := String "010"%char EmptyString.

(** A metric expression on two lines, and an argument list on two lines. *)
Definition two_line_metric : string := "a" +:+ newline +:+ "b".
Definition two_line_arguments : string := "a," +:+ newline +:+ "b".

(** The imports as modelled above. *)
Definition specified : Imports :=
  {| PrometheusLabelNamesRegex := VariableMigration.PrometheusLabelNamesRegex;
     PrometheusLabelNamesRegexWithMatch :=
       VariableMigration.PrometheusLabelNamesRegexWithMatch;
     PrometheusMetricNamesRegex := VariableMigration.PrometheusMetricNamesRegex;
     PrometheusQueryResultRegex := VariableMigration.PrometheusQueryResultRegex;
     getPrometheusTime := LanguageUtils.getPrometheusTime;
     RegExp := regex;
     RegExp_new := PatternFragment.RegExp_new;
     RegExp_test := PatternFragment.RegExp_test;
     NumberToString := IntegralText.NumberToString |}.


(** ** The dashboard row

    The component [DashboardRow]: its state is the flag [collapsed], set
    from the panel when the component is made and changed by [toggle] alone.
    The calls on the dashboard and the events emitted are kept in a log. *)
Module PanelModel.

(** The fields of the panel the row reads.  [panels] holds the panels
    hidden in a collapsed row; only their number is read. *)
Record t : Type := {
  collapsed : bool;
  title : string;
  scopedVars : list (string * string);
  panels : option (list nat);
}.

End PanelModel.

Module DashboardRow.

(** What the handlers of a modal do when they are called. *)
Inductive DashboardCall : Type :=
| toggleRow (panel : PanelModel.t)
| removeRow (panel : PanelModel.t) (removePanels : bool).

Inductive Event : Type :=
| Call (c : DashboardCall)
| ShowModal (templateHtml modalClass : string) (row : PanelModel.t)
| ConfirmModal (title text altActionText icon : string)
               (onConfirm onAltAction : list DashboardCall).

Record State : Type := { collapsed : bool }.

Record Component : Type := {
  panel : PanelModel.t;
  state : State;
}.

Definition constructor (props_panel : PanelModel.t) : Component :=
  {| panel := props_panel;
     state := {| collapsed := PanelModel.collapsed props_panel |} |}.

Definition toggle (c : Component) (log : list Event) : Component * list Event :=
  ({| panel := panel c;
      state := {| collapsed := negb (collapsed (state c)) |} |},
   log ++ [Call (toggleRow (panel c))]).

Definition openSettings (c : Component) (log : list Event) : Component * list Event :=
  (c,
   log ++ [ShowModal
             ("<row-options row=" +:+ dquote +:+ "model.row" +:+ dquote
              +:+ " on-updated=" +:+ dquote +:+ "model.onUpdated()" +:+ dquote
              +:+ " dismiss=" +:+ dquote +:+ "dismiss()" +:+ dquote
              +:+ "></row-options>")
             "modal--narrow" (panel c)]).

Definition delete (c : Component) (log : list Event) : Component * list Event :=
  (c,
   log ++ [ConfirmModal
             "Delete Row"
             "Are you sure you want to remove this row and all its panels?"
             "Delete row only" "fa-trash"
             [removeRow (panel c) true]
             [removeRow (panel c) false]]).

(** [classNames] on an object: the keys whose value is true, with blanks
    in between. *)
Definition classNames (o : list (string * bool)) : string :=
  join " " (List.map fst (List.filter snd o)).

(** What [render] shows: the class of the row, the class of the chevron,
    the title and the text of the panel count. *)
Record View : Type := {
  classes : string;
  chevronClass : string;
  shown_title : string;
  panel_count : string;
}.

Definition render (replaceWithText : string -> list (string * string) -> string)
           (c : Component) : View :=
  let classes :=
    classNames [("dashboard-row", true);
                ("dashboard-row--collapsed", collapsed (state c))] in
  let chevronClass :=
    classNames [("fa", true);
                ("fa-chevron-down", negb (collapsed (state c)));
                ("fa-chevron-right", collapsed (state c))] in
  let title :=
    replaceWithText (PanelModel.title (panel c)) (PanelModel.scopedVars (panel c)) in
  let hiddenPanels :=
    match PanelModel.panels (panel c) with
    | Some panels => length panels
    | None => 0%nat
    end in
  {| classes := classes;
     chevronClass := chevronClass;
     shown_title := title;
     panel_count :=
       "(" +:+ Number_toString (Z.of_nat hiddenPanels) +:+ " hidden panels)" |}.

(** [n] clicks on the title. *)
Fixpoint clicks (n : nat) (c : Component) (log : list Event)
  : Component * list Event :=
  match n with
  | O => (c, log)
  | S n' => let (c', log') := toggle c log in clicks n' c' log'
  end.

End DashboardRow.

(** * Properties *)

(** ** Strings and characters *)

Lemma chars_app (a b : string) : chars (a +:+ b) = chars a ++ chars b.
Proof. induction a as [|c a IH]; simpl; [reflexivity | now rewrite IH]. Qed.

Ltac by_cases_on_ascii c :=
  destruct c as [[] [] [] [] [] [] [] []]; vm_compute; congruence.

Lemma ident_char_dot c : ident_char c = true -> dot c = true.
Proof. by_cases_on_ascii c. Qed.

Lemma ident_char_not_comma c : ident_char c = true -> Ascii.eqb "," c = false.
Proof. by_cases_on_ascii c. Qed.

Lemma ident_start_not_space c : ident_start c = true -> space c = false.
Proof. by_cases_on_ascii c. Qed.

Lemma ident_start_char c : ident_start c = true -> ident_char c = true.
Proof. unfold ident_char. now intros ->. Qed.

Lemma consumed_app (a b : list ascii) : consumed (a ++ b) b = a.
Proof.
  unfold consumed. rewrite length_app.
  replace (length a + length b - length b)%nat with (length a) by lia.
  now rewrite firstn_app, Nat.sub_diag, firstn_all, firstn_O, app_nil_r.
Qed.

(** ** The greedy repetition *)

(** Characters of the set in front are taken when the match succeeds
    behind them. *)
Lemma rep_app p k n s1 s2 cs st :
  forallb p s1 = true ->
  rep p k (n + length s1) s2 cs = Some st ->
  rep p k n (s1 ++ s2) cs = Some st.
Proof.
  revert n. induction s1 as [|c s1 IH]; intros n Hp H; simpl in *.
  - now rewrite Nat.add_0_r in H.
  - apply andb_true_iff in Hp as [-> Hp].
    rewrite (IH (S n) Hp); [reflexivity|].
    now rewrite <- Nat.add_succ_comm in H.
Qed.

(** A continuation that needs the character [c0] first fails wherever the
    repetition stops in a run without [c0]. *)
Lemma rep_none p k c0 n s cs :
  (forall st, hd_error (rest st) <> Some c0 -> k st = None) ->
  forallb (fun c => negb (Ascii.eqb c0 c)) s = true ->
  rep p k n s cs = None.
Proof.
  intros Hk. revert n. induction s as [|c s IH]; intros n Hs; simpl in *.
  - apply Hk. simpl. discriminate.
  - apply andb_true_iff in Hs as [Hc Hs].
    assert (k (State n (c :: s) cs) = None) as Hhere.
    { apply Hk. simpl. intros [= ->]. now rewrite Ascii.eqb_refl in Hc. }
    destruct (p c); [rewrite (IH _ Hs)|]; exact Hhere.
Qed.

(** ** The pattern of the label values

    The two forms the pattern is written for, followed through the matcher. *)

Lemma space_not_comma c : space c = true -> Ascii.eqb "," c = false.
Proof. by_cases_on_ascii c. Qed.

Lemma bt_Str l k n s cs :
  bt (Str l) k (State n (l ++ s) cs) = k (State (length l + n) s cs).
Proof.
  revert n. induction l as [|c l IH]; intros n; simpl; [reflexivity|].
  rewrite Ascii.eqb_refl. unfold advance. simpl. rewrite IH.
  now rewrite Nat.add_succ_r.
Qed.

(** The label group and what follows it, up to the end of the input. *)
Lemma label_part_match n l0 l' cs :
  ident_start l0 = true ->
  forallb ident_char l' = true ->
  exists n',
    bt (Seq (Grp 2 (Seq (Cls ident_start) (Rep ident_char)))
       (Seq (Chr ")") (Seq (Rep space) Eol)))
       Some (State n (l0 :: l' ++ [")"%char]) cs)
    = Some (State n' [] (<[2 := Some (l0 :: l')]> cs)).
Proof.
  intros Hl0 Hl'. eexists.
  cbn -[rep consumed Ascii.eqb]. rewrite Hl0.
  cbn -[rep consumed Ascii.eqb].
  erewrite rep_app; [reflexivity | exact Hl' |].
  cbn -[consumed].
  change (l0 :: l' ++ [")"%char]) with ((l0 :: l') ++ [")"%char]).
  rewrite consumed_app. reflexivity.
Qed.

(** The optional part: the greedy group runs to the end of the line, and
    comes back to the last comma, the only place from which the rest of the
    pattern goes through. *)
Lemma metric_part_match n c m' ws L cs K st :
  forallb dot (c :: m') = true ->
  forallb space ws = true ->
  forallb (fun c => negb (Ascii.eqb "," c)) L = true ->
  match L with c :: _ => space c = false | [] => True end ->
  K (State (n + S (length m') + S (length ws)) L (<[1 := Some (c :: m')]> cs)) = Some st ->
  bt (Opt (Seq (Grp 1 (Rep1 dot)) (Seq (Chr ",") (Rep space)))) K
     (State n (c :: m' ++ ","%char :: ws ++ L) cs)
  = Some st.
Proof.
  intros Hm Hws HL Hsp HK.
  simpl in Hm. apply andb_true_iff in Hm as [Hc Hm].
  cbn -[rep consumed Ascii.eqb]. rewrite Hc.
  cbn -[rep consumed Ascii.eqb].
  erewrite rep_app; [reflexivity | exact Hm |].
  cbn [rep]. change (dot ","%char) with true. cbn iota.
  erewrite rep_none with (c0 := ","%char).
  - cbn -[rep consumed].
    change (c :: m' ++ ","%char :: ws ++ L) with ((c :: m') ++ ","%char :: ws ++ L).
    rewrite consumed_app.
    erewrite rep_app; [reflexivity | exact Hws |].
    replace (S (S (n + length m')) + length ws)%nat
      with (n + S (length m') + S (length ws))%nat by lia.
    assert ((if Nat.eqb (n + S (length m') + S (length ws)) n then None
             else K (State (n + S (length m') + S (length ws)) L
                           (<[1:=Some (c :: m')]> cs))) = Some st) as Hhere.
    { replace (Nat.eqb (n + S (length m') + S (length ws)) n) with false; [exact HK|].
      symmetry. apply Nat.eqb_neq. lia. }
    destruct L as [|c0 L]; simpl; [exact Hhere|].
    rewrite Hsp. exact Hhere.
  - intros st' Hhd. destruct (rest st') as [|c' s']; [reflexivity|].
    destruct (Ascii.eqb_spec ","%char c') as [<-|]; [now elim Hhd | reflexivity].
  - rewrite forallb_app, HL, andb_true_r.
    apply forallb_forall. intros x Hx. apply negb_true_iff, space_not_comma.
    eapply forallb_forall in Hws; eauto.
Qed.

Lemma ident_forall_not_comma l :
  forallb ident_char l = true ->
  forallb (fun c => negb (Ascii.eqb "," c)) (l ++ [")"%char]) = true.
Proof.
  intros Hl. rewrite forallb_app, andb_true_r.
  apply forallb_forall. intros x Hx. apply negb_true_iff, ident_char_not_comma.
  eapply forallb_forall in Hl; eauto.
Qed.

Lemma search_attempt r n s m :
  attempt r n s = Some m -> search r n s = Some m.
Proof. intros H. destruct s; simpl; now rewrite H. Qed.

(** The search on the form with a metric: the first group is everything
    up to the comma before the label. *)
Lemma search_two_arguments c m' ws l0 l' :
  forallb dot (c :: m') = true ->
  forallb space ws = true ->
  ident_start l0 = true ->
  forallb ident_char l' = true ->
  let input :=
    chars "label_values(" ++ (c :: m') ++ ","%char :: ws ++ (l0 :: l') ++ [")"%char] in
  search labelValuesRegex 0 input
  = Some [Some input; Some (c :: m'); Some (l0 :: l')].
Proof.
  intros Hm Hws Hl0 Hl' input.
  destruct (label_part_match
              (13 + S (length m') + S (length ws)) l0 l'
              (<[1 := Some (c :: m')]> [None; None; None]) Hl0 Hl') as [n' Hlabel].
  assert (attempt labelValuesRegex 0 input
          = Some [Some input; Some (c :: m'); Some (l0 :: l')]) as Hattempt.
  { unfold attempt, labelValuesRegex.
    change (bt (Seq Bol ?r) ?k ?st) with (bt r k st).
    change (bt (Seq (Str ?l) ?r) ?k ?st) with (bt (Str l) (bt r k) st).
    unfold input. rewrite bt_Str.
    change (bt (Seq (Opt ?r1) ?r2) ?k ?st) with (bt (Opt r1) (bt r2 k) st).
    change ((c :: m') ++ ","%char :: ws ++ (l0 :: l') ++ [")"%char])
      with (c :: m' ++ ","%char :: ws ++ (l0 :: l' ++ [")"%char])).
    erewrite metric_part_match; [| exact Hm | exact Hws | | | exact Hlabel].
    - cbn [rest caps]. unfold consumed. rewrite Nat.sub_0_r, firstn_all.
      reflexivity.
    - cbn [forallb]. rewrite (ident_char_not_comma l0 (ident_start_char _ Hl0)).
      now apply ident_forall_not_comma.
    - now apply ident_start_not_space. }
  now apply search_attempt.
Qed.

(** The search on the form with a label alone: the optional part is left
    out and the first group is absent. *)
Lemma search_one_argument l0 l' :
  ident_start l0 = true ->
  forallb ident_char l' = true ->
  let input := chars "label_values(" ++ (l0 :: l') ++ [")"%char] in
  search labelValuesRegex 0 input = Some [Some input; None; Some (l0 :: l')].
Proof.
  intros Hl0 Hl' input.
  destruct (label_part_match 13 l0 l' [None; None; None] Hl0 Hl') as [n' Hlabel].
  assert (attempt labelValuesRegex 0 input
          = Some [Some input; None; Some (l0 :: l')]) as Hattempt.
  { unfold attempt, labelValuesRegex.
    change (bt (Seq Bol ?r) ?k ?st) with (bt r k st).
    change (bt (Seq (Str ?l) ?r) ?k ?st) with (bt (Str l) (bt r k) st).
    unfold input. rewrite bt_Str.
    change (bt (Seq (Opt ?r1) ?r2) ?k ?st) with (bt (Opt r1) (bt r2 k) st).
    cbn -[rep consumed Ascii.eqb].
    rewrite (ident_char_dot l0 (ident_start_char _ Hl0)).
    erewrite rep_none with (c0 := ","%char).
    - rewrite Hl0.
      cbn -[rep consumed Ascii.eqb] in Hlabel. rewrite Hl0 in Hlabel.
      cbn -[rep consumed Ascii.eqb] in Hlabel. rewrite Hlabel.
      cbn [rest caps]. unfold consumed. rewrite Nat.sub_0_r, firstn_all.
      reflexivity.
    - intros st' Hhd. cbn -[rep consumed Ascii.eqb].
      destruct (rest st') as [|c' s']; [reflexivity|].
      destruct (Ascii.eqb_spec ","%char c') as [<-|]; [now elim Hhd | reflexivity].
    - now apply ident_forall_not_comma. }
  now apply search_attempt.
Qed.

(** [String.prototype.match] on the two forms. *)
Lemma match_label_only (label : string) :
  is_identifier label = true ->
  String_match ("label_values(" +:+ label +:+ ")") labelValuesRegex
  = Some [Some ("label_values(" +:+ label +:+ ")"); None; Some label].
Proof.
  unfold is_identifier, String_match, exec. intros Hid.
  destruct (chars label) as [|l0 l'] eqn:El; [discriminate|].
  apply andb_true_iff in Hid as [Hl0 Hl'].
  assert (chars ("label_values(" +:+ label +:+ ")")
          = chars "label_values(" ++ (l0 :: l') ++ [")"%char]) as Hq.
  { now rewrite !chars_app, El. }
  rewrite Hq, (search_one_argument l0 l' Hl0 Hl'). cbn [option_map map].
  rewrite <- Hq, <- El, !string_of_list_ascii_of_string.
  reflexivity.
Qed.

Lemma match_metric_and_label (metric ws label : string) :
  metric <> "" ->
  one_line metric = true ->
  forallb space (chars ws) = true ->
  is_identifier label = true ->
  String_match ("label_values(" +:+ metric +:+ "," +:+ ws +:+ label +:+ ")")
               labelValuesRegex
  = Some [Some ("label_values(" +:+ metric +:+ "," +:+ ws +:+ label +:+ ")");
          Some metric; Some label].
Proof.
  unfold is_identifier, one_line, String_match, exec. intros Hne Hm Hws Hid.
  destruct (chars label) as [|l0 l'] eqn:El; [discriminate|].
  apply andb_true_iff in Hid as [Hl0 Hl'].
  destruct (chars metric) as [|c m'] eqn:Em.
  { destruct metric; [now elim Hne | discriminate]. }
  assert (chars ("label_values(" +:+ metric +:+ "," +:+ ws +:+ label +:+ ")")
          = chars "label_values(" ++ (c :: m') ++ ","%char :: chars ws
            ++ (l0 :: l') ++ [")"%char]) as Hq.
  { now rewrite !chars_app, El, Em. }
  rewrite Hq, (search_two_arguments c m' (chars ws) l0 l' Hm Hws Hl0 Hl').
  cbn [option_map map].
  rewrite <- Hq, <- El, <- Em, !string_of_list_ascii_of_string.
  reflexivity.
Qed.

(** ** The classifier *)

Section Classifier.

Variable lib : Imports.
Variable datasource : PrometheusDatasource.

(** Once the two rules of the label names have failed, a query that the
    pattern of the label values matches is resolved by [labelValuesQuery]
    on the groups of the match. *)
Lemma process_label_values query whole metric label range w :
  String_match query (PrometheusLabelNamesRegexWithMatch lib) = None ->
  String_match query (PrometheusLabelNamesRegex lib) = None ->
  String_match query labelValuesRegex = Some [whole; metric; Some label] ->
  process lib datasource query range w
  = labelValuesQuery lib datasource range label
      (if truthy metric then metric else None) w.
Proof.
  intros Hwm Hln Hlv. unfold process.
  cbv zeta. rewrite Hwm, Hln, Hlv. cbn [group lookup list_lookup mjoin option_join].
  simpl. now destruct (truthy metric).
Qed.

(** A rule of the label names that matches decides, whatever the later
    patterns make of the query. *)
Lemma process_label_names_with_match query m range w :
  String_match query (PrometheusLabelNamesRegexWithMatch lib) = Some m ->
  process lib datasource query range w
  = match group m 1 with
    | Some g =>
        (let! results :=
           settle (getSeriesLabels datasource
                     ("{__name__=~" +:+ dquote +:+ ".*" +:+ g +:+ ".*" +:+ dquote +:+ "}")
                     []) in
         ret (List.map (fun result => {| text := result; expandable := None |})
                results)) w
    | None => untyped w
    end.
Proof.
  intros Hwm. unfold process. cbv zeta. rewrite Hwm.
  now destruct (group m 1).
Qed.

Lemma process_label_names query m range w :
  String_match query (PrometheusLabelNamesRegexWithMatch lib) = None ->
  String_match query (PrometheusLabelNamesRegex lib) = Some m ->
  process lib datasource query range w = settle (getTagKeys datasource range) w.
Proof.
  intros Hwm Hln. unfold process. cbv zeta.
  now rewrite Hwm, Hln.
Qed.

End Classifier.

(** ** The rule of the label values *)

(** C1, as amended.  For every label of the identifier syntax, once the two
    rules of the label names have failed on it, the query
    [label_values(<label>)] is matched with the label as second group and
    no first group, and resolved by [labelValuesQuery] on that label without
    a metric; the query [label_values(<metric>, <label>)], for a metric that
    is not empty and holds no line terminator, is matched with the metric
    and the label as groups and resolved by [labelValuesQuery] on both.  A
    rule of the label names that matches decides before this rule is
    tried. *)
Theorem label_values_rule
        (lib : Imports) (datasource : PrometheusDatasource) (range : TimeRange)
        (label metric : string) :
  is_identifier label = true ->
  metric <> "" ->
  one_line metric = true ->
  (forall w,
      String_match ("label_values(" +:+ label +:+ ")")
                   (PrometheusLabelNamesRegexWithMatch lib) = None ->
      String_match ("label_values(" +:+ label +:+ ")")
                   (PrometheusLabelNamesRegex lib) = None ->
      String_match ("label_values(" +:+ label +:+ ")") labelValuesRegex
      = Some [Some ("label_values(" +:+ label +:+ ")"); None; Some label]
      /\ process lib datasource ("label_values(" +:+ label +:+ ")") range w
         = labelValuesQuery lib datasource range label None w)
  /\ (forall w,
      String_match ("label_values(" +:+ metric +:+ ", " +:+ label +:+ ")")
                   (PrometheusLabelNamesRegexWithMatch lib) = None ->
      String_match ("label_values(" +:+ metric +:+ ", " +:+ label +:+ ")")
                   (PrometheusLabelNamesRegex lib) = None ->
      String_match ("label_values(" +:+ metric +:+ ", " +:+ label +:+ ")")
                   labelValuesRegex
      = Some [Some ("label_values(" +:+ metric +:+ ", " +:+ label +:+ ")");
              Some metric; Some label]
      /\ process lib datasource
                 ("label_values(" +:+ metric +:+ ", " +:+ label +:+ ")") range w
         = labelValuesQuery lib datasource range label (Some metric) w)
  /\ (forall query m w,
      String_match query (PrometheusLabelNamesRegexWithMatch lib) = Some m ->
      process lib datasource query range w
      = match group m 1 with
        | Some g =>
            (let! results :=
               settle (getSeriesLabels datasource
                         ("{__name__=~" +:+ dquote +:+ ".*" +:+ g +:+ ".*"
                          +:+ dquote +:+ "}") []) in
             ret (List.map (fun result => {| text := result; expandable := None |})
                    results)) w
        | None => untyped w
        end)
  /\ (forall query m w,
      String_match query (PrometheusLabelNamesRegexWithMatch lib) = None ->
      String_match query (PrometheusLabelNamesRegex lib) = Some m ->
      process lib datasource query range w
      = settle (getTagKeys datasource range) w).
Proof.
  intros Hid Hne Hline.
  pose proof (match_label_only label Hid) as Hone.
  pose proof (match_metric_and_label metric " " label Hne Hline eq_refl Hid) as Htwo.
  split; [|split; [|split]].
  - intros w Hwm Hln. split; [exact Hone|].
    now rewrite (process_label_values lib datasource _ _ _ _ range w Hwm Hln Hone).
  - intros w Hwm Hln. split; [exact Htwo|].
    rewrite (process_label_values lib datasource _ _ _ _ range w Hwm Hln Htwo).
    simpl. destruct (String.eqb_spec metric ""); [contradiction | reflexivity].
  - intros. now apply process_label_names_with_match.
  - intros. now apply (process_label_names lib datasource query m).
Qed.

Lemma label_values_rule_witness :
  is_identifier "job" = true
  /\ "my_metric" <> ""
  /\ one_line "my_metric" = true
  /\ process specified (answering true (Resolved (DStrings ["a"]))) "label_values(up)"
             example_range empty_world
     = labelValuesQuery specified (answering true (Resolved (DStrings ["a"]))) example_range
                        "up" None empty_world
  /\ process specified (answering true (Resolved (DStrings ["a"])))
             "label_values(my_metric, job)" example_range empty_world
     = labelValuesQuery specified (answering true (Resolved (DStrings ["a"]))) example_range
                        "job" (Some "my_metric") empty_world
  /\ process specified (answering true (Resolved (DStrings ["a"]))) "label_names()"
             example_range empty_world
     = (Resolved [], empty_world).
Proof.
  assert (is_identifier "up" = true) as Hup by reflexivity.
  assert (is_identifier "job" = true) as Hjob by reflexivity.
  assert ("my_metric" <> "") as Hne by discriminate.
  assert (one_line "my_metric" = true) as Hline by reflexivity.
  destruct (label_values_rule specified (answering true (Resolved (DStrings ["a"])))
              example_range "up" "my_metric" Hup Hne Hline) as (H1 & _ & _ & _).
  destruct (label_values_rule specified (answering true (Resolved (DStrings ["a"])))
              example_range "job" "my_metric" Hjob Hne Hline) as (_ & H2 & _ & H4).
  split; [exact Hjob|]. split; [exact Hne|]. split; [exact Hline|].
  split; [|split].
  - apply (H1 empty_world); reflexivity.
  - apply (H2 empty_world); reflexivity.
  - rewrite (H4 "label_names()" [Some "label_names()"] empty_world); reflexivity.
Defined.

(** C1, the claim as it stands, fails on a metric that holds a line
    terminator, and on the empty metric: the pattern does not match, and the
    query goes to the series of the free form, with the whole text as
    selector. *)
Lemma label_values_rule_counterexample :
  String_match ("label_values(" +:+ two_line_metric +:+ ", " +:+ "job" +:+ ")")
               labelValuesRegex = None
  /\ String_match ("label_values(" +:+ "" +:+ ", " +:+ "job" +:+ ")")
                  labelValuesRegex = None
  /\ process specified (answering true (Resolved (DStrings ["a"])))
             ("label_values(" +:+ two_line_metric +:+ ", " +:+ "job" +:+ ")")
             example_range empty_world
     = metricNameAndLabelsQuery specified (answering true (Resolved (DStrings ["a"])))
         example_range ("label_values(" +:+ two_line_metric +:+ ", " +:+ "job" +:+ ")")
         empty_world
  /\ process specified (answering true (Resolved (DStrings ["a"])))
             ("label_values(" +:+ two_line_metric +:+ ", " +:+ "job" +:+ ")")
             example_range empty_world
     <> labelValuesQuery specified (answering true (Resolved (DStrings ["a"]))) example_range
                         "job" (Some two_line_metric) empty_world.
Proof.
  repeat split; try reflexivity.
  vm_compute. discriminate.
Qed.

(** C10, as amended.  For every argument text that is not empty and holds
    no line terminator (with or without commas in it) and every label of
    the identifier syntax, the query [label_values(<args>, <label>)] is
    matched once the rules of the label names have failed: the first group
    is the whole of the argument text, the second is the label, and the
    request that is sent carries the argument text as [match[]]. *)
Theorem label_values_many_arguments
        (lib : Imports) (datasource : PrometheusDatasource) (range : TimeRange)
        (args label : string) (w : World) :
  is_identifier label = true ->
  args <> "" ->
  one_line args = true ->
  String_match ("label_values(" +:+ args +:+ ", " +:+ label +:+ ")")
               (PrometheusLabelNamesRegexWithMatch lib) = None ->
  String_match ("label_values(" +:+ args +:+ ", " +:+ label +:+ ")")
               (PrometheusLabelNamesRegex lib) = None ->
  String_match ("label_values(" +:+ args +:+ ", " +:+ label +:+ ")") labelValuesRegex
  = Some [Some ("label_values(" +:+ args +:+ ", " +:+ label +:+ ")");
          Some args; Some label]
  /\ process lib datasource ("label_values(" +:+ args +:+ ", " +:+ label +:+ ")")
             range w
     = labelValuesQuery lib datasource range label (Some args) w
  /\ snd (process lib datasource
                  ("label_values(" +:+ args +:+ ", " +:+ label +:+ ")") range w)
     = after_request w
         (if hasLabelsMatchAPISupport datasource
          then "/api/v1/label/" +:+ label +:+ "/values"
          else "/api/v1/series")
         (("match[]", args) :: time_window lib range).
Proof.
  intros Hid Hne Hline Hwm Hln.
  pose proof (match_metric_and_label args " " label Hne Hline eq_refl Hid) as Hm.
  assert (truthy (Some args) = true) as Ht.
  { simpl. now destruct (String.eqb_spec args ""). }
  split; [exact Hm|].
  rewrite (process_label_values lib datasource _ _ _ _ range w Hwm Hln Hm), Ht.
  split; [reflexivity|].
  unfold labelValuesQuery. rewrite Ht. cbn [negb orb].
  unfold bind, metadataRequest, after_request, time_window.
  destruct (hasLabelsMatchAPISupport datasource); cbn [app];
    match goal with
    | |- context [backend ?d ?u ?p] => destruct (backend d u p) as [[]| |]
    end; try reflexivity; destruct (strings_of _); reflexivity.
Qed.

Lemma label_values_many_arguments_witness :
  is_identifier "c" = true
  /\ "a, b" <> ""
  /\ one_line "a, b" = true
  /\ String_match "label_values(a, b, c)" labelValuesRegex
     = Some [Some "label_values(a, b, c)"; Some "a, b"; Some "c"]
  /\ sent (snd (process specified (answering true (Resolved (DStrings ["x"])))
                        "label_values(a, b, c)" example_range empty_world))
     = [("/api/v1/label/c/values",
         [("match[]", "a, b"); ("start", "10"); ("end", "12")])].
Proof.
  assert (is_identifier "c" = true) as Hid by reflexivity.
  assert ("a, b" <> "") as Hne by discriminate.
  assert (one_line "a, b" = true) as Hline by reflexivity.
  destruct (label_values_many_arguments
              specified (answering true (Resolved (DStrings ["x"]))) example_range
              "a, b" "c" empty_world Hid Hne Hline eq_refl eq_refl)
    as (Hm & _ & Hsent).
  split; [exact Hid|]. split; [exact Hne|]. split; [exact Hline|].
  split; [exact Hm|].
  change ("label_values(" +:+ "a, b" +:+ ", " +:+ "c" +:+ ")")
    with "label_values(a, b, c)" in Hsent.
  rewrite Hsent. reflexivity.
Defined.

(** C10, the claim as it stands, fails on an argument text with commas and
    a line terminator: the pattern does not match, and the query goes to the
    series of the free form. *)
Lemma label_values_many_arguments_counterexample :
  String_match ("label_values(" +:+ two_line_arguments +:+ ", " +:+ "c" +:+ ")")
               labelValuesRegex = None
  /\ process specified (answering true (Resolved (DStrings ["x"])))
             ("label_values(" +:+ two_line_arguments +:+ ", " +:+ "c" +:+ ")")
             example_range empty_world
     = metricNameAndLabelsQuery specified (answering true (Resolved (DStrings ["x"])))
         example_range ("label_values(" +:+ two_line_arguments +:+ ", " +:+ "c" +:+ ")")
         empty_world
  /\ process specified (answering true (Resolved (DStrings ["x"])))
             ("label_values(" +:+ two_line_arguments +:+ ", " +:+ "c" +:+ ")")
             example_range empty_world
     <> labelValuesQuery specified (answering true (Resolved (DStrings ["x"]))) example_range
                         "c" (Some two_line_arguments) empty_world.
Proof.
  repeat split; try reflexivity.
  vm_compute. discriminate.
Qed.

(** ** The decoders *)

(** *** lodash's [uniq] keeps the first occurrences *)

Lemma filter_filter_comm {A} (p q : A -> bool) (l : list A) :
  List.filter p (List.filter q l) = List.filter q (List.filter p l).
Proof.
  induction l as [|x l IH]; simpl; [reflexivity|].
  destruct (p x) eqn:Hp, (q x) eqn:Hq; simpl; rewrite ?Hp, ?Hq, IH; reflexivity.
Qed.

Lemma filter_both {A} (p q : A -> bool) (l : list A) :
  List.filter p (List.filter q l) = List.filter (fun x => q x && p x) l.
Proof.
  induction l as [|x l IH]; simpl; [reflexivity|].
  destruct (q x); simpl; [destruct (p x)|]; now rewrite IH.
Qed.

Lemma filter_drop_rejected (p : string -> bool) (y : string) (l : list string) :
  p y = false ->
  List.filter p (List.filter (fun z => negb (String.eqb z y)) l) = List.filter p l.
Proof.
  intros Hy. induction l as [|x l IH]; simpl; [reflexivity|].
  destruct (String.eqb_spec x y) as [->|Hxy]; simpl.
  - now rewrite Hy.
  - now rewrite IH.
Qed.

Lemma first_occurrences_filter (p : string -> bool) (l : list string) :
  first_occurrences (List.filter p l) = List.filter p (first_occurrences l).
Proof.
  induction l as [|y l IH]; simpl; [reflexivity|].
  destruct (p y) eqn:Hy; simpl.
  - now rewrite IH, filter_filter_comm.
  - now rewrite IH, filter_drop_rejected.
Qed.

Lemma uniq_from (acc l : list string) :
  fold_left
    (fun result value =>
       if existsb (String.eqb value) result then result else result ++ [value])
    l acc
  = acc ++ first_occurrences
             (List.filter (fun x => negb (existsb (String.eqb x) acc)) l).
Proof.
  revert acc. induction l as [|x l IH]; intros acc; simpl.
  - now rewrite app_nil_r.
  - destruct (existsb (String.eqb x) acc) eqn:Hx; simpl; rewrite IH.
    + reflexivity.
    + rewrite <- app_assoc. simpl. apply (f_equal (fun t => acc ++ x :: t)).
      rewrite <- first_occurrences_filter, filter_both. f_equal.
      apply List.filter_ext. intros z.
      rewrite existsb_app. simpl. now rewrite orb_false_r, negb_orb.
Qed.

Lemma uniq_first_occurrences (l : list string) : uniq l = first_occurrences l.
Proof.
  unfold uniq. rewrite uniq_from. simpl. f_equal.
  induction l as [|x l IH]; simpl; [reflexivity | now rewrite IH].
Qed.

Lemma first_occurrences_In (l : list string) (v : string) :
  In v (first_occurrences l) <-> In v l.
Proof.
  induction l as [|x l IH]; simpl; [reflexivity|].
  rewrite filter_In, IH. split.
  - intros [->|[H _]]; auto.
  - intros [->|H]; auto.
    destruct (String.eqb_spec v x) as [->|Hne]; auto.
Qed.

Lemma first_occurrences_NoDup (l : list string) : List.NoDup (first_occurrences l).
Proof.
  induction l as [|x l IH]; simpl; constructor.
  - rewrite filter_In, String.eqb_refl. intros [_ [=]].
  - now apply List.NoDup_filter.
Qed.

Lemma filter_array_pure {A} (p : A -> bool) (l : list A) (w : World) :
  filter_array (fun a => ret (p a)) l w = (Resolved (List.filter p l), w).
Proof.
  induction l as [|a l IH]; simpl; [reflexivity|].
  unfold bind at 1. unfold ret at 1. unfold bind at 1. rewrite IH.
  now destruct (p a).
Qed.

(** *** The label values *)

(** C5.  When no metric is given (the code takes the empty string for none
    as well) or the data source supports [match[]] on the labels, the one
    request of [labelValuesQuery] goes to [/api/v1/label/<label>/values],
    and every string of the answer becomes the item [{text: value}]: the
    field [expandable] is left out, which the data model reads as [false]. *)
Theorem label_values_listing
        (lib : Imports) (datasource : PrometheusDatasource) (range : TimeRange)
        (label : string) (metric : option string) (w : World) :
  truthy metric = false \/ hasLabelsMatchAPISupport datasource = true ->
  snd (labelValuesQuery lib datasource range label metric w)
  = after_request w ("/api/v1/label/" +:+ label +:+ "/values")
      ((if truthy metric then [("match[]", or_empty metric)] else [])
       ++ time_window lib range)
  /\ forall values,
      backend datasource ("/api/v1/label/" +:+ label +:+ "/values")
        ((if truthy metric then [("match[]", or_empty metric)] else [])
         ++ time_window lib range)
      = Resolved (DStrings values) ->
      fst (labelValuesQuery lib datasource range label metric w)
      = Resolved (List.map (fun value => {| text := value; expandable := None |}) values)
      /\ Forall (fun item => is_expandable item = false)
           (List.map (fun value => {| text := value; expandable := None |}) values).
Proof.
  intros Hpath.
  assert (negb (truthy metric) || hasLabelsMatchAPISupport datasource = true) as Hif.
  { destruct Hpath as [-> | ->]; [reflexivity | apply orb_true_r]. }
  assert ((match metric with
           | Some m => if truthy metric then [("match[]", m)] else []
           | None => []
           end)
          = (if truthy metric then [("match[]", or_empty metric)] else [])) as Hparams.
  { destruct metric as [m|]; reflexivity. }
  unfold labelValuesQuery. rewrite Hif, Hparams.
  unfold bind, metadataRequest, after_request, time_window.
  split.
  - match goal with
    | |- context [backend ?d ?u ?p] => destruct (backend d u p) as [[]| |]
    end; try reflexivity; destruct (strings_of _); reflexivity.
  - intros values ->. split; [reflexivity|].
    clear. induction values as [|v values IH]; simpl; constructor;
      [reflexivity | exact IH].
Qed.

Lemma label_values_listing_witness :
  (truthy None = false \/ hasLabelsMatchAPISupport
                            (answering false (Resolved (DStrings ["a"; "b"]))) = true)
  /\ labelValuesQuery specified (answering false (Resolved (DStrings ["a"; "b"])))
                      example_range "job" None empty_world
     = (Resolved [ {| text := "a"; expandable := None |};
                   {| text := "b"; expandable := None |} ],
        after_request empty_world "/api/v1/label/job/values"
                      [("start", "10"); ("end", "12")]).
Proof.
  assert (truthy None = false
          \/ hasLabelsMatchAPISupport
               (answering false (Resolved (DStrings ["a"; "b"]))) = true) as Hpath.
  { left. reflexivity. }
  split; [exact Hpath|].
  destruct (label_values_listing specified
              (answering false (Resolved (DStrings ["a"; "b"]))) example_range "job" None
              empty_world Hpath) as [Hsent Hitems].
  destruct (Hitems ["a"; "b"] eq_refl) as [Hfst _].
  rewrite (surjective_pairing (labelValuesQuery _ _ _ _ _ _)), Hsent, Hfst.
  reflexivity.
Defined.

Lemma seriesLabels_own (label : string) (series : list JsObject) :
  inherited label = false ->
  strings_of (seriesLabels label series)
  = Some (List.filter (fun v => negb (String.eqb v ""))
            (List.map (fun labels => or_empty (obj_get labels label)) series)).
Proof.
  intros Hown. unfold seriesLabels, obj_read. rewrite Hown.
  induction series as [|labels series IH]; [reflexivity|].
  cbn [List.map List.filter].
  destruct (obj_get labels label) as [v|]; cbn [value_or_empty or_empty default
                                                 is_not_empty_string from_option id].
  - destruct (negb (String.eqb v "")); [|exact IH].
    cbn [strings_of]. now rewrite IH.
  - change (negb (String.eqb "" "")) with false. cbv iota. exact IH.
Qed.

(** For a label that is not a name objects inherit: with a metric and a
    data source without [match[]] on the labels, the one request goes to
    [/api/v1/series] with the metric as [match[]]; the items are the values
    of the label in the series of the answer, the empty and the absent ones
    dropped, each value at its first occurrence only, and every item is
    expandable. *)
Lemma label_values_from_series_own
      (lib : Imports) (datasource : PrometheusDatasource) (range : TimeRange)
      (label metric : string) (series : list JsObject) (w : World) :
  inherited label = false ->
  metric <> "" ->
  hasLabelsMatchAPISupport datasource = false ->
  backend datasource "/api/v1/series" (("match[]", metric) :: time_window lib range)
  = Resolved (DSeries series) ->
  labelValuesQuery lib datasource range label (Some metric) w
  = (Resolved
       (List.map (fun v => {| text := v; expandable := Some true |})
          (first_occurrences
             (List.filter (fun v => negb (String.eqb v ""))
                (List.map (fun labels => or_empty (obj_get labels label)) series)))),
     after_request w "/api/v1/series" (("match[]", metric) :: time_window lib range))
  /\ List.NoDup
       (first_occurrences
          (List.filter (fun v => negb (String.eqb v ""))
             (List.map (fun labels => or_empty (obj_get labels label)) series)))
  /\ forall v,
      In v (first_occurrences
              (List.filter (fun v => negb (String.eqb v ""))
                 (List.map (fun labels => or_empty (obj_get labels label)) series)))
      <-> v <> "" /\ exists labels, In labels series /\ obj_get labels label = Some v.
Proof.
  intros Hown Hne Hsupport Hanswer.
  assert (truthy (Some metric) = true) as Ht.
  { simpl. now destruct (String.eqb_spec metric ""). }
  split; [|split].
  - unfold labelValuesQuery. rewrite Ht, Hsupport. cbn [negb orb app].
    unfold bind, metadataRequest, after_request. unfold time_window in Hanswer.
    rewrite Hanswer. cbv zeta. rewrite (seriesLabels_own label series Hown).
    now rewrite uniq_first_occurrences.
  - apply first_occurrences_NoDup.
  - intros v. rewrite first_occurrences_In, filter_In, in_map_iff. split.
    + intros [(labels & Hv & Hin) Hv'].
      apply negb_true_iff, String.eqb_neq in Hv'. split; [exact Hv'|].
      exists labels. split; [exact Hin|].
      destruct (obj_get labels label) as [v0|]; simpl in Hv; subst; [reflexivity|].
      now elim Hv'.
    + intros [Hv (labels & Hin & Hget)]. split.
      * exists labels. now rewrite Hget.
      * now apply negb_true_iff, String.eqb_neq.
Qed.

Example label_values_from_series_job :
  labelValuesQuery specified
    (answering false
       (Resolved (DSeries [[("job", "a")]; [("job", "a")]; [("job", "b")];
                           [("job", "")]])))
    example_range "job" (Some "up") empty_world
  = (Resolved [ {| text := "a"; expandable := Some true |};
                {| text := "b"; expandable := Some true |} ],
     after_request empty_world "/api/v1/series"
                   [("match[]", "up"); ("start", "10"); ("end", "12")]).
Proof.
  destruct (label_values_from_series_own specified
              (answering false
                 (Resolved (DSeries [[("job", "a")]; [("job", "a")]; [("job", "b")];
                                     [("job", "")]])))
              example_range "job" "up" _ empty_world eq_refl
              ltac:(discriminate) eq_refl eq_refl) as [H _].
  rewrite H. reflexivity.
Qed.

(** C6, where the code fails it.  The label [constructor] has the
    identifier syntax and is a name every object inherits.  On the query
    [label_values(up, constructor)], with a data source without [match[]]
    on the labels and one series that has no such label, the read of the
    label gives the inherited function: it is not [''], so it is kept, and
    the result is not the empty sequence but holds an item whose text is no
    string. *)
Theorem label_values_from_series_inherited :
  is_identifier "constructor" = true
  /\ obj_get [("__name__", "up"); ("job", "a")] "constructor" = None
  /\ seriesLabels "constructor" [[("__name__", "up"); ("job", "a")]]
     = [JInherited "constructor"]
  /\ process specified
       (answering false (Resolved (DSeries [[("__name__", "up"); ("job", "a")]])))
       "label_values(up, constructor)" example_range empty_world
     = (Untyped,
        after_request empty_world "/api/v1/series"
                      [("match[]", "up"); ("start", "10"); ("end", "12")])
  /\ fst (process specified
            (answering false (Resolved (DSeries [[("__name__", "up"); ("job", "a")]])))
            "label_values(up, constructor)" example_range empty_world)
     <> Resolved [].
Proof.
  split; [reflexivity|]. split; [reflexivity|]. split; [reflexivity|].
  split; [reflexivity|]. vm_compute. discriminate.
Qed.

(** *** The metric names *)

(** C7.  For a filter that is a pattern, the one request of
    [metricNameQuery] goes to [/api/v1/label/__name__/values], and the items
    are the names of the answer on which the pattern tests true, in the
    order of the answer, each of them expandable; the other names are
    dropped. *)
Theorem metric_names_filtered
        (lib : Imports) (datasource : PrometheusDatasource) (range : TimeRange)
        (metricFilterPattern : string) (r : RegExp lib) (names : list string)
        (w : World) :
  RegExp_new lib metricFilterPattern = Some r ->
  backend datasource "/api/v1/label/__name__/values" (time_window lib range)
  = Resolved (DStrings names) ->
  metricNameQuery lib datasource range metricFilterPattern w
  = (Resolved
       (List.map (fun name => {| text := name; expandable := Some true |})
          (List.filter (RegExp_test lib r) names)),
     after_request w "/api/v1/label/__name__/values" (time_window lib range)).
Proof.
  intros Hnew Hanswer.
  unfold metricNameQuery, bind at 1, metadataRequest, after_request.
  unfold time_window in Hanswer. rewrite Hanswer.
  unfold bind. rewrite Hnew, filter_array_pure. reflexivity.
Qed.

Lemma metric_names_filtered_witness :
  RegExp_new specified "foo.*" <> None
  /\ metricNameQuery specified (answering false (Resolved (DStrings ["foobar"; "baz"])))
                     example_range "foo.*" empty_world
     = (Resolved [ {| text := "foobar"; expandable := Some true |} ],
        after_request empty_world "/api/v1/label/__name__/values"
                      [("start", "10"); ("end", "12")])
  /\ fst (metricNameQuery specified
            (answering false (Resolved (DStrings ["foobar"; "baz"])))
            example_range "oba" empty_world)
     = Resolved [ {| text := "foobar"; expandable := Some true |} ].
Proof.
  split; [discriminate|]. split.
  - rewrite (metric_names_filtered specified
               (answering false (Resolved (DStrings ["foobar"; "baz"])))
               example_range "foo.*" _ ["foobar"; "baz"] empty_world eq_refl eq_refl).
    reflexivity.
  - rewrite (metric_names_filtered specified
               (answering false (Resolved (DStrings ["foobar"; "baz"])))
               example_range "oba" _ ["foobar"; "baz"] empty_world eq_refl eq_refl).
    reflexivity.
Defined.

(** *** The instant query *)

Lemma append_assoc (a b c : string) : (a +:+ b) +:+ c = a +:+ b +:+ c.
Proof.
  induction a as [|x a IH]; [reflexivity|].
  change (String x ((a +:+ b) +:+ c) = String x (a +:+ b +:+ c)).
  now rewrite IH.
Qed.

Lemma vectorItem_alloc (lib : Imports) (s : Sample) (w : World) (labels : JsObject) :
  heap w !! metric s = Some labels ->
  vectorItem lib s w
  = (Resolved {| text := vector_text lib labels (value s); expandable := Some true |},
     {| heap := <[metric s := obj_delete labels "__name__"]> (heap w);
        sent := sent w |}).
Proof.
  intros H. unfold vectorItem. rewrite H. unfold vector_text, obj_map, obj_delete.
  now rewrite !append_assoc.
Qed.

Lemma obj_delete_get (labels : JsObject) (k : string) :
  obj_get (obj_delete labels k) k = None.
Proof.
  induction labels as [|[k' v] labels IH]; simpl; [reflexivity|].
  destruct (String.eqb k' k) eqn:E; simpl; [exact IH | now rewrite E].
Qed.

Lemma obj_delete_idem (labels : JsObject) (k : string) :
  obj_delete (obj_delete labels k) k = obj_delete labels k.
Proof.
  unfold obj_delete. rewrite filter_both. apply List.filter_ext.
  intros kv. apply andb_diag.
Qed.

(** The whole of the vector case, when every sample refers to an object. *)
Lemma map_array_vectorItem (lib : Imports) (samples : list Sample) (w : World) :
  (forall s, In s samples -> heap w !! metric s <> None) ->
  exists items,
    map_array (vectorItem lib) samples w
    = (Resolved items,
       {| heap := strip_names samples (heap w); sent := sent w |})
    /\ length items = length samples.
Proof.
  revert w. induction samples as [|s samples IH]; intros w Halloc.
  - exists []. destruct w. split; reflexivity.
  - destruct (heap w !! metric s) as [labels|] eqn:Hs.
    2:{ exfalso. apply (Halloc s); [now left | exact Hs]. }
    set (w1 := {| heap := <[metric s := obj_delete labels "__name__"]> (heap w);
                  sent := sent w |}).
    destruct (IH w1) as (items & Hitems & Hlen).
    { intros s' Hin. simpl.
      destruct (decide (metric s = metric s')) as [<-|Hne].
      - now rewrite lookup_insert_eq.
      - rewrite lookup_insert_ne by exact Hne. apply Halloc. now right. }
    eexists. split.
    + cbn [map_array]. unfold bind at 1. rewrite (vectorItem_alloc lib s w labels Hs).
      fold w1. unfold bind at 1. rewrite Hitems. unfold ret.
      change (strip_names (s :: samples) (heap w))
        with (strip_names samples
                (<[metric s := obj_delete (labels_of (heap w) s) "__name__"]> (heap w))).
      unfold labels_of. rewrite Hs. reflexivity.
    + simpl. now rewrite Hlen.
Qed.

(** The vector case never throws an [Error] of its own. *)
Lemma map_array_vectorItem_no_error (lib : Imports) (samples : list Sample) (w : World) message :
  fst (map_array (vectorItem lib) samples w) <> Rejected (Error message).
Proof.
  revert w. induction samples as [|s samples IH]; intros w; [discriminate|].
  cbn [map_array]. unfold bind at 1. unfold vectorItem at 1.
  destruct (heap w !! metric s); [|discriminate].
  unfold bind at 1.
  match goal with
  | |- context [map_array (vectorItem lib) samples ?w1] =>
      specialize (IH w1); destruct (map_array (vectorItem lib) samples w1) as [[items|e|] w2]
  end; simpl in *; congruence.
Qed.

(** The items of the vector case when no two samples share a label set:
    each text is made from the label set as the answer gave it. *)
Lemma map_array_vectorItem_distinct (lib : Imports) (samples : list Sample) (w : World) :
  List.NoDup (List.map metric samples) ->
  (forall s, In s samples -> heap w !! metric s <> None) ->
  fst (map_array (vectorItem lib) samples w)
  = Resolved
      (List.map
         (fun s => {| text := vector_text lib (labels_of (heap w) s) (value s);
                      expandable := Some true |})
         samples).
Proof.
  revert w. induction samples as [|s samples IH]; intros w Hdistinct Halloc.
  - reflexivity.
  - destruct (heap w !! metric s) as [labels|] eqn:Hs.
    2:{ exfalso. apply (Halloc s); [now left | exact Hs]. }
    cbn [List.map] in Hdistinct. apply List.NoDup_cons_iff in Hdistinct as [Hfresh Hdistinct].
    set (w1 := {| heap := <[metric s := obj_delete labels "__name__"]> (heap w);
                  sent := sent w |}).
    assert (forall s', In s' samples -> heap w1 !! metric s' = heap w !! metric s')
      as Hframe.
    { intros s' Hin. simpl. apply lookup_insert_ne. intros Heq.
      apply Hfresh. rewrite Heq. now apply in_map. }
    assert (forall s', In s' samples -> heap w1 !! metric s' <> None) as Halloc1.
    { intros s' Hin. rewrite (Hframe s' Hin). apply Halloc. now right. }
    specialize (IH w1 Hdistinct Halloc1).
    cbn [map_array]. unfold bind at 1. rewrite (vectorItem_alloc lib s w labels Hs).
    fold w1. unfold bind at 1.
    destruct (map_array (vectorItem lib) samples w1) as [[items|e|] w2];
      cbn [fst] in IH; try discriminate.
    injection IH as ->. unfold ret. cbn [fst List.map].
    apply f_equal. apply f_equal2.
    + unfold labels_of. now rewrite Hs.
    + apply List.map_ext_in. intros s' Hin.
      apply (f_equal (fun o => {| text := vector_text lib (default [] o) (value s');
                                  expandable := Some true |})).
      exact (Hframe s' Hin).
Qed.

Lemma strip_names_frame (samples : list Sample) (h : gmap loc JsObject) (l : loc) :
  ~ In l (List.map metric samples) ->
  strip_names samples h !! l = h !! l.
Proof.
  revert h. induction samples as [|s samples IH]; intros h Hl; [reflexivity|].
  change (strip_names (s :: samples) h)
    with (strip_names samples
            (<[metric s := obj_delete (labels_of h s) "__name__"]> h)).
  rewrite IH by (intros Hin; apply Hl; now right).
  apply lookup_insert_ne. intros Heq. apply Hl. now left.
Qed.

Lemma strip_names_lookup (samples : list Sample) (h : gmap loc JsObject)
      (l : loc) (labels : JsObject) :
  In l (List.map metric samples) ->
  h !! l = Some labels ->
  strip_names samples h !! l = Some (obj_delete labels "__name__").
Proof.
  revert h labels. induction samples as [|s samples IH]; intros h labels Hin Hl;
    [contradiction|].
  change (strip_names (s :: samples) h)
    with (strip_names samples
            (<[metric s := obj_delete (labels_of h s) "__name__"]> h)).
  destruct (Nat.eq_dec (metric s) l) as [Heq|Hne].
  - assert (<[metric s := obj_delete (labels_of h s) "__name__"]> h !! l
            = Some (obj_delete labels "__name__")) as Hl1.
    { unfold labels_of. rewrite Heq, Hl. apply lookup_insert_eq. }
    destruct (in_dec Nat.eq_dec l (List.map metric samples)) as [Hin'|Hout].
    + rewrite (IH _ _ Hin' Hl1). now rewrite obj_delete_idem.
    + now rewrite (strip_names_frame _ _ _ Hout).
  - destruct Hin as [Heq|Hin]; [contradiction|].
    apply (IH _ _ Hin). rewrite <- Hl. now apply lookup_insert_ne.
Qed.

(** C2.  For an instant query answered by a vector whose samples refer to
    label sets of their own, the items are, sample by sample, the text made
    of the value of [__name__] (nothing if there is none), the other labels
    between braces as [key="value"] separated by commas in the order of the
    object, a space, the sample value, a space and the time multiplied by
    1000; every item is expandable.  The time is a double, whole or not, the
    product is the one of doubles, and its text is what the built-in
    conversion of a number gives, whatever that conversion is. *)
Theorem vector_items (lib : Imports)
        (datasource : PrometheusDatasource) (query : string)
        (samples : list Sample) (w : World) :
  backend datasource "/api/v1/query" [("query", query)]
  = Resolved (DQuery "vector" (PSamples samples)) ->
  List.NoDup (List.map metric samples) ->
  (forall s, In s samples -> heap w !! metric s <> None) ->
  fst (queryResultQuery lib datasource query w)
  = Resolved
      (List.map
         (fun s => {| text := vector_text lib (labels_of (heap w) s) (value s);
                      expandable := Some true |})
         samples).
Proof.
  intros Hanswer Hdistinct Halloc.
  unfold queryResultQuery, bind, metadataRequest. rewrite Hanswer. cbn [String.eqb orb].
  change (String.eqb "vector" "scalar" || String.eqb "vector" "string") with false.
  change (String.eqb "vector" "vector") with true. cbv iota.
  exact (map_array_vectorItem_distinct lib samples
           {| heap := heap w;
              sent := sent w ++ [("/api/v1/query", [("query", query)])] |}
           Hdistinct Halloc).
Qed.

Lemma vector_items_witness :
  List.NoDup (List.map metric [ {| metric := 0; value := (1000%float, "1") |} ])
  /\ heap up_world !! 0%nat = Some [("__name__", "up"); ("instance", "a")]
  /\ fst (queryResultQuery specified (answering false (Resolved up_vector)) "up" up_world)
     = Resolved
         [ {| text := "up{instance=" +:+ dquote +:+ "a" +:+ dquote +:+ "} 1 1000000";
              expandable := Some true |} ].
Proof.
  assert (List.NoDup (List.map metric [ {| metric := 0; value := (1000%float, "1") |} ]))
    as Hdistinct.
  { repeat constructor. intros []. }
  split; [exact Hdistinct|]. split; [reflexivity|].
  rewrite (vector_items specified (answering false (Resolved up_vector)) "up"
             [ {| metric := 0; value := (1000%float, "1") |} ] up_world eq_refl Hdistinct).
  - reflexivity.
  - intros s [<-|[]]. discriminate.
Defined.

(** A time stamp with a fraction of a second, 1435781451.781 as the
    nearest double: the product with 1000 is the whole 1435781451781. *)
Example vector_text_fraction :
  vector_text specified [("__name__", "up"); ("instance", "a")]
    (0x1.5651252f1fbe7p+30%float, "1")
  = "up{instance=" +:+ dquote +:+ "a" +:+ dquote +:+ "} 1 1435781451781".
Proof. reflexivity. Qed.

(** C3.  An instant query answered with a result type other than [scalar],
    [string] and [vector] is rejected with an error whose message holds
    that result type, whatever the payload; with one of the three types the
    query never ends in an error with a message. *)
Theorem unknown_result_type (lib : Imports)
        (datasource : PrometheusDatasource) (query resultType : string)
        (payload : QueryPayload) (w : World) :
  backend datasource "/api/v1/query" [("query", query)]
  = Resolved (DQuery resultType payload) ->
  (resultType <> "scalar" /\ resultType <> "string" /\ resultType <> "vector" ->
   queryResultQuery lib datasource query w
   = (Rejected (Error ("Unknown/Unhandled result type: [" +:+ resultType +:+ "]")),
      after_request w "/api/v1/query" [("query", query)])
   /\ contains ("Unknown/Unhandled result type: [" +:+ resultType +:+ "]") resultType)
  /\ (resultType = "scalar" \/ resultType = "string" \/ resultType = "vector" ->
      forall message,
        fst (queryResultQuery lib datasource query w) <> Rejected (Error message)).
Proof.
  intros Hanswer. unfold queryResultQuery, bind, metadataRequest. rewrite Hanswer.
  split.
  - intros (Hscalar & Hstring & Hvector).
    apply String.eqb_neq in Hscalar, Hstring, Hvector.
    rewrite Hscalar, Hstring, Hvector. split; [reflexivity|].
    exists "Unknown/Unhandled result type: [", "]". reflexivity.
  - intros Hhandled message.
    destruct Hhandled as [-> | [-> | ->]].
    + change (String.eqb "scalar" "scalar" || String.eqb "scalar" "string") with true.
      destruct payload; discriminate.
    + change (String.eqb "string" "scalar" || String.eqb "string" "string") with true.
      destruct payload; discriminate.
    + change (String.eqb "vector" "scalar" || String.eqb "vector" "string") with false.
      change (String.eqb "vector" "vector") with true. cbv iota.
      destruct payload; try discriminate.
      apply map_array_vectorItem_no_error.
Qed.

Lemma unknown_result_type_witness :
  ("matrix" <> "scalar" /\ "matrix" <> "string" /\ "matrix" <> "vector")
  /\ queryResultQuery specified (answering false (Resolved (DQuery "matrix" POther)))
                      "up[5m]" empty_world
     = (Rejected (Error "Unknown/Unhandled result type: [matrix]"),
        after_request empty_world "/api/v1/query" [("query", "up[5m]")])
  /\ fst (queryResultQuery specified (answering false (Resolved (DQuery "scalar" (PValue 1000%float (Some "42")))))
                           "1" empty_world)
     = Resolved [ {| text := "42"; expandable := Some false |} ].
Proof.
  assert ("matrix" <> "scalar" /\ "matrix" <> "string" /\ "matrix" <> "vector") as Hother.
  { repeat split; discriminate. }
  split; [exact Hother|]. split; [|reflexivity].
  destruct (unknown_result_type specified
              (answering false (Resolved (DQuery "matrix" POther))) "up[5m]" "matrix"
              POther empty_world eq_refl) as [Hunknown _].
  destruct (Hunknown Hother) as [Hrejected _].
  exact Hrejected.
Defined.

(** C9.  In the vector case the label set of every sample is changed in
    place: once the query has resolved, the object the sample refers to is
    the object of the answer without [__name__], for every holder of the
    reference, and no other object of the heap has changed. *)
Theorem vector_strips_names (lib : Imports)
        (datasource : PrometheusDatasource) (query : string)
        (samples : list Sample) (w : World) :
  backend datasource "/api/v1/query" [("query", query)]
  = Resolved (DQuery "vector" (PSamples samples)) ->
  (forall s, In s samples -> heap w !! metric s <> None) ->
  (exists items, fst (queryResultQuery lib datasource query w) = Resolved items)
  /\ (forall s, In s samples ->
        exists labels,
          heap w !! metric s = Some labels
          /\ heap (snd (queryResultQuery lib datasource query w)) !! metric s
             = Some (obj_delete labels "__name__")
          /\ obj_get (obj_delete labels "__name__") "__name__" = None)
  /\ (forall l, ~ In l (List.map metric samples) ->
        heap (snd (queryResultQuery lib datasource query w)) !! l = heap w !! l).
Proof.
  intros Hanswer Halloc.
  unfold queryResultQuery, bind, metadataRequest. rewrite Hanswer.
  change (String.eqb "vector" "scalar" || String.eqb "vector" "string") with false.
  change (String.eqb "vector" "vector") with true. cbv iota.
  destruct (map_array_vectorItem lib samples
              {| heap := heap w;
                 sent := sent w ++ [("/api/v1/query", [("query", query)])] |})
    as (items & -> & _); [exact Halloc|].
  cbn [fst snd heap]. split; [now exists items|]. split.
  - intros s Hin. destruct (heap w !! metric s) as [labels|] eqn:Hs.
    2:{ now elim (Halloc s Hin). }
    exists labels. split; [reflexivity|]. split.
    + apply strip_names_lookup; [now apply in_map | exact Hs].
    + apply obj_delete_get.
  - intros l Hl. now apply strip_names_frame.
Qed.

Lemma vector_strips_names_witness :
  heap up_world !! 0%nat = Some [("__name__", "up"); ("instance", "a")]
  /\ heap (snd (queryResultQuery specified (answering false (Resolved up_vector)) "up" up_world))
       !! 0%nat
     = Some [("instance", "a")].
Proof.
  split; [reflexivity|].
  destruct (vector_strips_names specified (answering false (Resolved up_vector)) "up"
              [ {| metric := 0; value := (1000%float, "1") |} ] up_world eq_refl)
    as (_ & Hstrip & _).
  - intros s [<-|[]]. discriminate.
  - destruct (Hstrip {| metric := 0; value := (1000%float, "1") |}) as (labels & H0 & H1 & _).
    + now left.
    + cbn [metric] in H0, H1. rewrite H1.
      assert (labels = [("__name__", "up"); ("instance", "a")]) as ->.
      { change (heap up_world !! 0%nat)
          with (Some [("__name__", "up"); ("instance", "a")]) in H0.
        now injection H0. }
      reflexivity.
Defined.

(** ** The requests *)

Lemma filter_array_world {A} (predicate : A -> Async bool) (l : list A) (w : World) :
  (forall a w', snd (predicate a w') = w') ->
  snd (filter_array predicate l w) = w.
Proof.
  intros Hp. revert w. induction l as [|a l IH]; intros w; [reflexivity|].
  cbn [filter_array]. unfold bind at 1.
  pose proof (Hp a w) as Ha. destruct (predicate a w) as [[keep|e|] w1];
    cbn [snd] in Ha; subst w1; try reflexivity.
  unfold bind at 1. pose proof (IH w) as Hl.
  destruct (filter_array predicate l w) as [[rest|e|] w1];
    cbn [snd] in Hl; subst w1; reflexivity.
Qed.

Lemma map_array_vectorItem_sent (lib : Imports) (samples : list Sample) (w : World) :
  sent (snd (map_array (vectorItem lib) samples w)) = sent w.
Proof.
  revert w. induction samples as [|s samples IH]; intros w; [reflexivity|].
  cbn [map_array]. unfold bind at 1. unfold vectorItem at 1.
  destruct (heap w !! metric s); [|reflexivity].
  unfold bind at 1.
  match goal with
  | |- context [map_array (vectorItem lib) samples ?w1] =>
      specialize (IH w1); destruct (map_array (vectorItem lib) samples w1) as [[items|e|] w2]
  end; exact IH.
Qed.

Section Requests.

Variable lib : Imports.
Variable datasource : PrometheusDatasource.

Lemma labelValuesQuery_world range label metric w :
  snd (labelValuesQuery lib datasource range label metric w)
  = after_request w
      (if negb (truthy metric) || hasLabelsMatchAPISupport datasource
       then "/api/v1/label/" +:+ label +:+ "/values"
       else "/api/v1/series")
      ((if truthy metric then [("match[]", or_empty metric)] else [])
       ++ time_window lib range).
Proof.
  assert ((match metric with
           | Some m => if truthy metric then [("match[]", m)] else []
           | None => []
           end)
          = (if truthy metric then [("match[]", or_empty metric)] else [])) as Hparams.
  { destruct metric as [m|]; reflexivity. }
  unfold labelValuesQuery. rewrite Hparams.
  unfold bind, metadataRequest, after_request, time_window.
  destruct (negb (truthy metric) || hasLabelsMatchAPISupport datasource);
    match goal with
    | |- context [backend ?d ?u ?p] => destruct (backend d u p) as [[]| |]
    end; try reflexivity; destruct (strings_of _); reflexivity.
Qed.

Lemma metricNameQuery_world range pattern w :
  snd (metricNameQuery lib datasource range pattern w)
  = after_request w "/api/v1/label/__name__/values" (time_window lib range).
Proof.
  unfold metricNameQuery, bind at 1, metadataRequest, after_request, time_window.
  match goal with
  | |- context [backend ?d ?u ?p] => destruct (backend d u p) as [[]| |]
  end; try reflexivity.
  unfold bind.
  match goal with
  | |- context [filter_array ?p ?l ?w0] =>
      pose proof (filter_array_world p l w0) as Hw;
      destruct (filter_array p l w0) as [[matched|e|] w1]
  end; cbn [snd] in *; apply Hw; intros a w'; destruct (RegExp_new lib pattern);
    reflexivity.
Qed.

Lemma queryResultQuery_sent query w :
  sent (snd (queryResultQuery lib datasource query w))
  = sent w ++ [("/api/v1/query", [("query", query)])].
Proof.
  unfold queryResultQuery, bind, metadataRequest.
  destruct (backend datasource "/api/v1/query" [("query", query)])
    as [[| | |resultType payload]| |]; try reflexivity.
  destruct (String.eqb resultType "scalar" || String.eqb resultType "string").
  - destruct payload; reflexivity.
  - destruct (String.eqb resultType "vector"); [|reflexivity].
    destruct payload; try reflexivity.
    now rewrite map_array_vectorItem_sent.
Qed.

Lemma metricNameAndLabelsQuery_world range query w :
  snd (metricNameAndLabelsQuery lib datasource range query w)
  = after_request w "/api/v1/series" (("match[]", query) :: time_window lib range).
Proof.
  unfold metricNameAndLabelsQuery, bind, metadataRequest, after_request, time_window.
  match goal with
  | |- context [backend ?d ?u ?p] => destruct (backend d u p) as [[]| |]
  end; reflexivity.
Qed.

(** What [process] sends: nothing, or the instant query, or one request
    that carries the window of the range, after [match[]] if there is one. *)
Lemma process_sent query range w :
  sent (snd (process lib datasource query range w)) = sent w
  \/ (exists q,
        sent (snd (process lib datasource query range w))
        = sent w ++ [("/api/v1/query", [("query", q)])])
  \/ (exists url selector,
        sent (snd (process lib datasource query range w))
        = sent w ++ [(url, selector ++ time_window lib range)]
        /\ (selector = [] \/ exists m, selector = [("match[]", m)])).
Proof.
  unfold process. cbv zeta.
  destruct (String_match query (PrometheusLabelNamesRegexWithMatch lib)) as [m|].
  { left. destruct (group m 1); [|reflexivity].
    unfold bind, settle. destruct (getSeriesLabels datasource _ []); reflexivity. }
  destruct (String_match query (PrometheusLabelNamesRegex lib)).
  { left. reflexivity. }
  assert (forall label metric,
             exists url selector,
               sent (snd (labelValuesQuery lib datasource range label metric w))
               = sent w ++ [(url, selector ++ time_window lib range)]
               /\ (selector = [] \/ exists m, selector = [("match[]", m)])) as Hlv.
  { intros label metric. rewrite labelValuesQuery_world. eexists. eexists.
    split; [reflexivity|]. destruct (truthy metric); eauto. }
  destruct (String_match query labelValuesRegex) as [m|].
  { destruct (group m 2) as [label|]; [|now left].
    right. right. destruct (truthy (group m 1)); apply Hlv. }
  destruct (String_match query (PrometheusMetricNamesRegex lib)) as [m|].
  { destruct (group m 1) as [pattern|]; [|now left].
    right. right. rewrite metricNameQuery_world. exists "/api/v1/label/__name__/values", [].
    split; [reflexivity | now left]. }
  destruct (String_match query (PrometheusQueryResultRegex lib)) as [m|].
  { destruct (group m 1) as [q|]; [|now left].
    right. left. exists q. apply queryResultQuery_sent. }
  destruct (negb (existsb (String.eqb query) expressions)); [|now left].
  right. right. rewrite metricNameAndLabelsQuery_world.
  exists "/api/v1/series", [("match[]", query)]. split; [reflexivity | eauto].
Qed.

End Requests.

(** C4.  With [getPrometheusTime] as the specification has it, the start
    of the window is the instant of [from] floored to whole seconds and its
    end is the instant of [to] ceiled to whole seconds, and every request of
    [process] but the instant query, which has no window, carries the two as
    decimal strings under [start] and [end]. *)
Theorem window_rounding
        (lib : Imports) (datasource : PrometheusDatasource) (query : string)
        (range : TimeRange) (w : World) :
  getPrometheusTime lib = LanguageUtils.getPrometheusTime ->
  (getPrometheusTime lib (from range) false * 1000 <= from range
   < getPrometheusTime lib (from range) false * 1000 + 1000)%Z
  /\ (getPrometheusTime lib (to range) true * 1000 - 1000 < to range
      <= getPrometheusTime lib (to range) true * 1000)%Z
  /\ (sent (snd (process lib datasource query range w)) = sent w
      \/ (exists q,
            sent (snd (process lib datasource query range w))
            = sent w ++ [("/api/v1/query", [("query", q)])])
      \/ (exists url params,
            sent (snd (process lib datasource query range w))
            = sent w ++ [(url, params)]
            /\ obj_get params "start"
               = Some (Number_toString (getPrometheusTime lib (from range) false))
            /\ obj_get params "end"
               = Some (Number_toString (getPrometheusTime lib (to range) true)))).
Proof.
  intros Htime. rewrite Htime. unfold LanguageUtils.getPrometheusTime.
  split; [|split].
  - pose proof (Z.div_mod (from range) 1000 ltac:(lia)) as Hdiv.
    pose proof (Z.mod_pos_bound (from range) 1000 ltac:(lia)) as Hmod. lia.
  - pose proof (Z.div_mod (- to range) 1000 ltac:(lia)) as Hdiv.
    pose proof (Z.mod_pos_bound (- to range) 1000 ltac:(lia)) as Hmod. lia.
  - destruct (process_sent lib datasource query range w)
      as [Hnone | [Hquery | (url & selector & Hsent & Hselector)]].
    + now left.
    + right. now left.
    + right. right. exists url, (selector ++ time_window lib range).
      split; [exact Hsent|]. unfold time_window. rewrite Htime.
      destruct Hselector as [-> | [m ->]]; split; reflexivity.
Qed.

Lemma window_rounding_witness :
  getPrometheusTime specified = LanguageUtils.getPrometheusTime
  /\ getPrometheusTime specified (from example_range) false = 10%Z
  /\ getPrometheusTime specified (to example_range) true = 12%Z
  /\ sent (snd (process specified (answering true (Resolved (DStrings ["a"])))
                        "label_values(up)" example_range empty_world))
     = [("/api/v1/label/up/values", [("start", "10"); ("end", "12")])].
Proof.
  split; [reflexivity|].
  destruct (window_rounding specified (answering true (Resolved (DStrings ["a"])))
              "label_values(up)" example_range empty_world eq_refl) as (Hfloor & Hceil & _).
  cbn [from to example_range] in Hfloor, Hceil |- *.
  split; [lia|]. split; [lia|]. reflexivity.
Defined.

(** ** The reserved forms and the empty result *)

(** C8.  A query that none of the rules matches and that is one of
    [label_values()], [metrics()] and [query_result()] resolves to the empty
    sequence and sends nothing.  Every run of [process] settles, and when
    it resolves it is with a sequence; an answer without data resolves to
    the empty sequence. *)
Theorem reserved_forms_empty
        (lib : Imports) (datasource : PrometheusDatasource) (query : string)
        (range : TimeRange) (w : World) :
  (In query expressions ->
   String_match query (PrometheusLabelNamesRegexWithMatch lib) = None ->
   String_match query (PrometheusLabelNamesRegex lib) = None ->
   String_match query (PrometheusMetricNamesRegex lib) = None ->
   String_match query (PrometheusQueryResultRegex lib) = None ->
   String_match query labelValuesRegex = None
   /\ process lib datasource query range w = (Resolved [], w))
  /\ ((exists items, fst (process lib datasource query range w) = Resolved items)
      \/ (exists e, fst (process lib datasource query range w) = Rejected e)
      \/ fst (process lib datasource query range w) = Untyped)
  /\ ((forall url params, backend datasource url params = Resolved DAbsent) ->
      (forall label metric,
          fst (labelValuesQuery lib datasource range label metric w) = Resolved [])
      /\ (forall pattern,
             fst (metricNameQuery lib datasource range pattern w) = Resolved [])
      /\ (forall selector,
             fst (metricNameAndLabelsQuery lib datasource range selector w)
             = Resolved [])).
Proof.
  split; [|split].
  - intros Hin Hwm Hln Hmn Hqr.
    assert (String_match query labelValuesRegex = None
            /\ negb (existsb (String.eqb query) expressions) = false) as [Hlv Hreserved].
    { destruct Hin as [<- | [<- | [<- | []]]]; split; reflexivity. }
    split; [exact Hlv|].
    unfold process. cbv zeta. now rewrite Hwm, Hln, Hlv, Hmn, Hqr, Hreserved.
  - destruct (fst (process lib datasource query range w)) as [items|e|]; eauto.
  - intros Habsent. split; [|split].
    + intros label metric. unfold labelValuesQuery, bind, metadataRequest.
      rewrite !Habsent.
      now destruct (negb (truthy metric) || hasLabelsMatchAPISupport datasource).
    + intros pattern. unfold metricNameQuery, bind, metadataRequest.
      now rewrite Habsent.
    + intros selector. unfold metricNameAndLabelsQuery, bind, metadataRequest.
      now rewrite Habsent.
Qed.

Lemma reserved_forms_empty_witness :
  In "metrics()" expressions
  /\ process specified (answering true (Resolved (DStrings ["a"]))) "label_values()"
             example_range empty_world = (Resolved [], empty_world)
  /\ process specified (answering true (Resolved (DStrings ["a"]))) "metrics()"
             example_range empty_world = (Resolved [], empty_world)
  /\ process specified (answering true (Resolved (DStrings ["a"]))) "query_result()"
             example_range empty_world = (Resolved [], empty_world)
  /\ fst (metricNameQuery specified (answering true (Resolved DAbsent)) example_range "up"
            empty_world) = Resolved [].
Proof.
  assert (In "metrics()" expressions) as Hin by (right; left; reflexivity).
  split; [exact Hin|]. split; [|split; [|split]].
  - destruct (reserved_forms_empty specified
                (answering true (Resolved (DStrings ["a"]))) "label_values()" example_range
                empty_world) as [H _].
    apply H; solve [reflexivity | left; reflexivity].
  - destruct (reserved_forms_empty specified
                (answering true (Resolved (DStrings ["a"]))) "metrics()" example_range
                empty_world) as [H _].
    apply H; solve [reflexivity | exact Hin].
  - destruct (reserved_forms_empty specified
                (answering true (Resolved (DStrings ["a"]))) "query_result()" example_range
                empty_world) as [H _].
    apply H; solve [reflexivity | right; right; left; reflexivity].
  - destruct (reserved_forms_empty specified (answering true (Resolved DAbsent))
                "metrics()" example_range empty_world) as (_ & _ & Habsent).
    destruct Habsent as (_ & Hnames & _); [reflexivity|]. apply Hnames.
Defined.

(** * Further properties *)

(** ** What a match of the label values says about the query *)

(** Where a repetition succeeds, it has taken a run of the set and the
    continuation has succeeded behind the run. *)
Lemma rep_inv p k n s cs st :
  rep p k n s cs = Some st ->
  exists s1 s2,
    s = s1 ++ s2 /\ forallb p s1 = true
    /\ k (State (n + length s1) s2 cs) = Some st.
Proof.
  revert n. induction s as [|c s IH]; intros n H; simpl in H.
  - exists [], []. simpl. now rewrite Nat.add_0_r.
  - destruct (p c) eqn:Hc.
    + destruct (rep p k (S n) s cs) as [st1|] eqn:Hrep.
      * injection H as ->. destruct (IH _ Hrep) as (s1 & s2 & -> & Hs1 & Hk).
        exists (c :: s1), s2. split; [reflexivity|].
        split; [simpl; now rewrite Hc|].
        replace (n + length (c :: s1)) with (S n + length s1) by (simpl; lia).
        exact Hk.
      * exists [], (c :: s). simpl. now rewrite Nat.add_0_r.
    + exists [], (c :: s). simpl. now rewrite Nat.add_0_r.
Qed.

Lemma bt_Str_inv l k st st' :
  bt (Str l) k st = Some st' ->
  exists s, rest st = l ++ s /\ k (State (length l + pos st) s (caps st)) = Some st'.
Proof.
  revert st. induction l as [|c l IH]; intros [n s cs] H; simpl in *.
  - now exists s.
  - destruct s as [|c' s]; [discriminate|].
    destruct (Ascii.eqb_spec c c') as [<-|]; [|discriminate].
    destruct (IH _ H) as (s0 & Hs & Hk). simpl in Hs, Hk. subst s.
    exists s0. split; [reflexivity|].
    replace (S (length l + n)) with (length l + S n) by lia. exact Hk.
Qed.

(** The label group and the end of the pattern, read backwards. *)
Lemma label_part_inv st st' :
  bt (Seq (Grp 2 (Seq (Cls ident_start) (Rep ident_char)))
     (Seq (Chr ")") (Seq (Rep space) Eol)))
     Some st = Some st' ->
  exists l0 l' ws,
    rest st = l0 :: l' ++ ")"%char :: ws
    /\ ident_start l0 = true /\ forallb ident_char l' = true
    /\ forallb space ws = true
    /\ caps st' = <[2 := Some (l0 :: l')]> (caps st)
    /\ rest st' = [].
Proof.
  destruct st as [n s cs]. cbn -[rep consumed Ascii.eqb]. intros H.
  destruct s as [|l0 s]; [discriminate|].
  destruct (ident_start l0) eqn:Hl0; [|discriminate].
  cbn -[rep consumed Ascii.eqb] in H.
  apply rep_inv in H as (l' & s2 & -> & Hl' & H).
  cbn -[rep consumed Ascii.eqb] in H.
  destruct s2 as [|c s3]; [discriminate|].
  destruct (Ascii.eqb_spec ")"%char c) as [<-|]; [|discriminate].
  apply rep_inv in H as (ws & s4 & -> & Hws & H).
  cbn -[consumed] in H. destruct s4; [|discriminate]. injection H as <-.
  exists l0, l', ws. rewrite app_nil_r. repeat split; auto.
  cbn [caps]. change (l0 :: l' ++ ")"%char :: ws) with ((l0 :: l') ++ ")"%char :: ws).
  now rewrite consumed_app.
Qed.

(** The optional part, read backwards: either it is left out, or the first
    group has taken a run without line terminator up to a comma. *)
Lemma metric_part_inv K st st' :
  bt (Opt (Seq (Grp 1 (Rep1 dot)) (Seq (Chr ",") (Rep space)))) K st = Some st' ->
  K st = Some st'
  \/ exists c m' ws s n,
       rest st = c :: m' ++ ","%char :: ws ++ s
       /\ forallb dot (c :: m') = true /\ forallb space ws = true
       /\ K (State n s (<[1 := Some (c :: m')]> (caps st))) = Some st'.
Proof.
  destruct st as [n s cs]. cbn -[rep consumed Ascii.eqb]. intros H.
  match type of H with
  | match ?b with _ => _ end = _ => destruct b as [st1|] eqn:Hbody
  end; [injection H as ->|now left].
  right. destruct s as [|c s]; [discriminate|].
  destruct (dot c) eqn:Hc; [|discriminate].
  cbn -[rep consumed Ascii.eqb] in Hbody.
  apply rep_inv in Hbody as (m' & s2 & -> & Hm' & H).
  cbn -[rep consumed Ascii.eqb] in H.
  destruct s2 as [|c2 s3]; [discriminate|].
  destruct (Ascii.eqb_spec ","%char c2) as [<-|]; [|discriminate].
  apply rep_inv in H as (ws & s4 & -> & Hws & H).
  cbn -[consumed] in H.
  match type of H with
  | (if ?b then _ else _) = _ => destruct b; [discriminate|]
  end.
  change (c :: m' ++ ","%char :: ws ++ s4) with ((c :: m') ++ ","%char :: ws ++ s4) in H.
  rewrite consumed_app in H.
  exists c, m', ws, s4. eexists. repeat split; eauto.
  simpl. now rewrite Hc.
Qed.

Lemma search_anchored r n s :
  search (Seq Bol r) (S n) s = None.
Proof. revert n. induction s as [|c s IH]; intros n; simpl; [reflexivity | apply IH]. Qed.

Lemma consumed_all (s : list ascii) : consumed s [] = s.
Proof. unfold consumed. simpl. now rewrite Nat.sub_0_r, firstn_all. Qed.

(** What the input is when the pattern matches, and what the groups are. *)
Lemma search_label_values_inv s m :
  search labelValuesRegex 0 s = Some m ->
  exists metric l0 l' ws',
    m = [Some s; metric; Some (l0 :: l')]
    /\ ident_start l0 = true /\ forallb ident_char l' = true
    /\ forallb space ws' = true
    /\ match metric with
       | None => s = chars "label_values(" ++ l0 :: l' ++ ")"%char :: ws'
       | Some mt =>
           exists ws,
             mt <> [] /\ forallb dot mt = true /\ forallb space ws = true
             /\ s = chars "label_values(" ++ mt ++ ","%char :: ws
                    ++ l0 :: l' ++ ")"%char :: ws'
       end.
Proof.
  intros H.
  assert (attempt labelValuesRegex 0 s = Some m) as Ha.
  { destruct s as [|c s]; simpl in H;
      destruct (attempt labelValuesRegex 0 _) as [m0|]; try exact H; try discriminate.
    unfold labelValuesRegex in H. now rewrite search_anchored in H. }
  clear H. unfold attempt in Ha.
  destruct (bt labelValuesRegex Some _) as [st|] eqn:Hbt; [|discriminate].
  injection Ha as <-.
  unfold labelValuesRegex in Hbt.
  change (bt (Seq Bol ?r) ?k ?st) with (bt r k st) in Hbt.
  change (bt (Seq (Str ?l) ?r) ?k ?st) with (bt (Str l) (bt r k) st) in Hbt.
  apply bt_Str_inv in Hbt as (s1 & Hs & Hbt). cbn [rest caps pos] in Hs, Hbt. subst s.
  change (bt (Seq (Opt ?r1) ?r2) ?k ?st) with (bt (Opt r1) (bt r2 k) st) in Hbt.
  apply metric_part_inv in Hbt as [Hbt | (c & m' & ws & s2 & n & Hs1 & Hm & Hws & Hbt)].
  - apply label_part_inv in Hbt as (l0 & l' & ws' & Hs1 & Hl0 & Hl' & Hws' & Hcaps & Hrest).
    cbn [rest caps] in Hs1, Hcaps. subst s1.
    exists None, l0, l', ws'. rewrite Hcaps, Hrest, consumed_all.
    split; [reflexivity|]. split; [exact Hl0|]. split; [exact Hl'|].
    split; [exact Hws'|]. reflexivity.
  - apply label_part_inv in Hbt as (l0 & l' & ws' & Hs2 & Hl0 & Hl' & Hws' & Hcaps & Hrest).
    cbn [rest caps] in Hs1, Hs2, Hcaps. subst s1 s2.
    exists (Some (c :: m')), l0, l', ws'. rewrite Hcaps, Hrest, consumed_all.
    split; [reflexivity|]. split; [exact Hl0|]. split; [exact Hl'|].
    split; [exact Hws'|].
    exists ws. split; [discriminate|]. split; [exact Hm|]. split; [exact Hws|].
    reflexivity.
Qed.

Lemma space_forall_not_comma ws :
  forallb space ws = true ->
  forallb (fun c => negb (Ascii.eqb "," c)) ws = true.
Proof.
  intros H. apply forallb_forall. intros x Hx.
  apply negb_true_iff, space_not_comma. eapply forallb_forall in H; eauto.
Qed.

(** The label group with blanks after the closing parenthesis. *)
Lemma label_part_match_blanks n l0 l' ws' cs :
  ident_start l0 = true ->
  forallb ident_char l' = true ->
  forallb space ws' = true ->
  exists n',
    bt (Seq (Grp 2 (Seq (Cls ident_start) (Rep ident_char)))
       (Seq (Chr ")") (Seq (Rep space) Eol)))
       Some (State n (l0 :: l' ++ ")"%char :: ws') cs)
    = Some (State n' [] (<[2 := Some (l0 :: l')]> cs)).
Proof.
  intros Hl0 Hl' Hws'. eexists.
  cbn -[rep consumed Ascii.eqb]. rewrite Hl0.
  cbn -[rep consumed Ascii.eqb].
  erewrite rep_app; [reflexivity | exact Hl' |].
  cbn [rep]. change (ident_char ")"%char) with false. cbn -[rep consumed].
  change (l0 :: l' ++ ")"%char :: ws') with ((l0 :: l') ++ ")"%char :: ws').
  rewrite consumed_app.
  rewrite <- (app_nil_r ws') at 1.
  erewrite rep_app; [reflexivity | exact Hws' |]. reflexivity.
Qed.

Lemma search_label_values_complete metric l0 l' ws' :
  ident_start l0 = true ->
  forallb ident_char l' = true ->
  forallb space ws' = true ->
  forall s,
    match metric with
    | None => s = chars "label_values(" ++ l0 :: l' ++ ")"%char :: ws'
    | Some mt =>
        exists ws,
          mt <> [] /\ forallb dot mt = true /\ forallb space ws = true
          /\ s = chars "label_values(" ++ mt ++ ","%char :: ws
                 ++ l0 :: l' ++ ")"%char :: ws'
    end ->
    search labelValuesRegex 0 s = Some [Some s; metric; Some (l0 :: l')].
Proof.
  intros Hl0 Hl' Hws' s Hs.
  assert (forallb (fun c => negb (Ascii.eqb "," c)) (l0 :: l' ++ ")"%char :: ws') = true)
    as Hnocomma.
  { cbn [forallb]. rewrite (ident_char_not_comma l0 (ident_start_char _ Hl0)).
    rewrite forallb_app. cbn [forallb negb andb].
    rewrite (space_forall_not_comma _ Hws'), andb_true_r.
    apply forallb_forall. intros x Hx. apply negb_true_iff, ident_char_not_comma.
    eapply forallb_forall in Hl'; eauto. }
  apply search_attempt. unfold attempt, labelValuesRegex.
  change (bt (Seq Bol ?r) ?k ?st) with (bt r k st).
  change (bt (Seq (Str ?l) ?r) ?k ?st) with (bt (Str l) (bt r k) st).
  destruct metric as [mt|].
  - destruct Hs as (ws & Hne & Hm & Hws & ->).
    destruct mt as [|c m']; [now elim Hne|].
    destruct (label_part_match_blanks
                (13 + S (length m') + S (length ws)) l0 l' ws'
                (<[1 := Some (c :: m')]> [None; None; None]) Hl0 Hl' Hws')
      as [n' Hlabel].
    rewrite bt_Str.
    change (bt (Seq (Opt ?r1) ?r2) ?k ?st) with (bt (Opt r1) (bt r2 k) st).
    change ((c :: m') ++ ","%char :: ws ++ l0 :: l' ++ ")"%char :: ws')
      with (c :: m' ++ ","%char :: ws ++ (l0 :: l' ++ ")"%char :: ws')).
    erewrite metric_part_match; [| exact Hm | exact Hws | exact Hnocomma | | exact Hlabel].
    + cbn [rest caps]. now rewrite consumed_all.
    + now apply ident_start_not_space.
  - subst s.
    destruct (label_part_match_blanks 13 l0 l' ws' [None; None; None] Hl0 Hl' Hws')
      as [n' Hlabel].
    rewrite bt_Str.
    change (bt (Seq (Opt ?r1) ?r2) ?k ?st) with (bt (Opt r1) (bt r2 k) st).
    cbn -[rep consumed Ascii.eqb].
    rewrite (ident_char_dot l0 (ident_start_char _ Hl0)).
    erewrite rep_none with (c0 := ","%char).
    + rewrite Hl0.
      cbn -[rep consumed Ascii.eqb] in Hlabel. rewrite Hl0 in Hlabel.
      cbn -[rep consumed Ascii.eqb] in Hlabel. rewrite Hlabel.
      cbn [rest caps]. now rewrite consumed_all.
    + intros st' Hhd. cbn -[rep consumed Ascii.eqb].
      destruct (rest st') as [|c' s']; [reflexivity|].
      destruct (Ascii.eqb_spec ","%char c') as [<-|]; [now elim Hhd | reflexivity].
    + cbn [forallb] in Hnocomma. now apply andb_true_iff in Hnocomma as [_ ?].
Qed.

Lemma chars_inj (a b : string) : chars a = chars b -> a = b.
Proof.
  intros H. rewrite <- (string_of_list_ascii_of_string a),
    <- (string_of_list_ascii_of_string b). now rewrite H.
Qed.

(** X1.  The pattern of the label values matches a query exactly when the
    query is [label_values(], an optional metric that is not empty and
    holds no line terminator followed by a comma and blanks, a label of the
    identifier syntax, [)] and blanks up to the end; the groups of the match
    are then that metric, if there is one, and that label. *)
Theorem label_values_match_form (query : string) (m : list (option string)) :
  String_match query labelValuesRegex = Some m
  <-> exists metric label blanks,
      m = [Some query; metric; Some label]
      /\ is_identifier label = true
      /\ all_blank blanks = true
      /\ match metric with
         | None => query = "label_values(" +:+ label +:+ ")" +:+ blanks
         | Some mt =>
             exists ws,
               mt <> "" /\ one_line mt = true /\ all_blank ws = true
               /\ query = "label_values(" +:+ mt +:+ "," +:+ ws +:+ label
                          +:+ ")" +:+ blanks
         end.
Proof.
  unfold String_match, exec, all_blank, one_line, is_identifier. split.
  - destruct (search labelValuesRegex 0 (chars query)) as [m0|] eqn:Hs; [|discriminate].
    intros [= <-].
    apply search_label_values_inv in Hs
      as (metric & l0 & l' & ws' & -> & Hl0 & Hl' & Hws' & Hform).
    exists (option_map of_chars metric), (of_chars (l0 :: l')), (of_chars ws').
    rewrite !list_ascii_of_string_of_list_ascii, Hl0, Hl', Hws'.
    cbn [List.map option_map]. rewrite string_of_list_ascii_of_string.
    split; [reflexivity|]. split; [reflexivity|]. split; [reflexivity|].
    destruct metric as [mt|]; cbn [option_map].
    + destruct Hform as (ws & Hne & Hm & Hws & Hq). exists (of_chars ws).
      rewrite !list_ascii_of_string_of_list_ascii.
      split; [|split; [exact Hm|split; [exact Hws|]]].
      * intros He. apply Hne. apply (f_equal chars) in He.
        now rewrite list_ascii_of_string_of_list_ascii in He.
      * apply chars_inj. rewrite Hq, !chars_app, !list_ascii_of_string_of_list_ascii.
        reflexivity.
    + apply chars_inj. rewrite Hform, !chars_app, !list_ascii_of_string_of_list_ascii.
      reflexivity.
  - intros (metric & label & blanks & -> & Hid & Hblanks & Hform).
    destruct (chars label) as [|l0 l'] eqn:El; [discriminate|].
    apply andb_true_iff in Hid as [Hl0 Hl'].
    rewrite (search_label_values_complete (option_map chars metric) l0 l' (chars blanks)
               Hl0 Hl' Hblanks).
    + cbn [option_map List.map]. rewrite <- El, !string_of_list_ascii_of_string.
      destruct metric; cbn [option_map]; now rewrite ?string_of_list_ascii_of_string.
    + destruct metric as [mt|]; cbn [option_map].
      * destruct Hform as (ws & Hne & Hm & Hws & ->). exists (chars ws).
        split; [|split; [exact Hm|split; [exact Hws|]]].
        -- intros He. apply Hne. apply chars_inj. now rewrite He.
        -- now rewrite !chars_app, El.
      * subst query. now rewrite !chars_app, El.
Qed.

Lemma label_values_match_form_witness :
  String_match ("label_values(up{job=" +:+ dquote +:+ "a,b" +:+ dquote +:+ "},  instance)  ")
               labelValuesRegex
  = Some [Some ("label_values(up{job=" +:+ dquote +:+ "a,b" +:+ dquote
                +:+ "},  instance)  ");
          Some ("up{job=" +:+ dquote +:+ "a,b" +:+ dquote +:+ "}");
          Some "instance"]
  /\ String_match " label_values(up)" labelValuesRegex = None.
Proof.
  split; [|reflexivity].
  apply (proj2 (label_values_match_form _ _)).
  exists (Some ("up{job=" +:+ dquote +:+ "a,b" +:+ dquote +:+ "}")), "instance", "  ".
  split; [reflexivity|]. split; [reflexivity|]. split; [reflexivity|].
  exists "  ". split; [discriminate|]. repeat split.
Defined.

(** ** What [process] sends and what it leaves alone *)

(** X2.  [process] sends no request or exactly one, and that one goes to
    [/api/v1/series], to [/api/v1/query] or to [/api/v1/label/<label>/values]
    with a label of the identifier syntax. *)
Theorem process_request_paths
        (lib : Imports) (datasource : PrometheusDatasource) (query : string)
        (range : TimeRange) (w : World) :
  sent (snd (process lib datasource query range w)) = sent w
  \/ exists url params,
      sent (snd (process lib datasource query range w)) = sent w ++ [(url, params)]
      /\ (url = "/api/v1/series"
          \/ url = "/api/v1/query"
          \/ exists label,
               is_identifier label = true
               /\ url = "/api/v1/label/" +:+ label +:+ "/values").
Proof.
  unfold process. cbv zeta.
  destruct (String_match query (PrometheusLabelNamesRegexWithMatch lib)) as [m|].
  { left. destruct (group m 1); [|reflexivity].
    unfold bind, settle. destruct (getSeriesLabels datasource _ []); reflexivity. }
  destruct (String_match query (PrometheusLabelNamesRegex lib)).
  { left. reflexivity. }
  destruct (String_match query labelValuesRegex) as [m|] eqn:Hlv.
  { apply (proj1 (label_values_match_form _ _)) in Hlv
      as (metric & label & blanks & -> & Hid & _).
    cbn [group lookup list_lookup mjoin option_join]. simpl.
    right.
    assert (forall mt,
               exists url params,
                 sent (snd (labelValuesQuery lib datasource range label mt w))
                 = sent w ++ [(url, params)]
                 /\ (url = "/api/v1/series"
                     \/ url = "/api/v1/query"
                     \/ exists label0,
                          is_identifier label0 = true
                          /\ url = "/api/v1/label/" +:+ label0 +:+ "/values")) as Hq.
    { intros mt. rewrite labelValuesQuery_world. eexists. eexists.
      split; [reflexivity|].
      destruct (negb (truthy mt) || hasLabelsMatchAPISupport datasource);
        [right; right; exists label; now split | now left]. }
    destruct (truthy metric); apply Hq. }
  destruct (String_match query (PrometheusMetricNamesRegex lib)) as [m|].
  { destruct (group m 1) as [pattern|]; [|now left].
    right. rewrite metricNameQuery_world. eexists. eexists.
    split; [reflexivity|]. right. right. exists "__name__". split; reflexivity. }
  destruct (String_match query (PrometheusQueryResultRegex lib)) as [m|].
  { destruct (group m 1) as [q|]; [|now left].
    right. rewrite queryResultQuery_sent. eexists. eexists.
    split; [reflexivity|]. right. now left. }
  destruct (negb (existsb (String.eqb query) expressions)); [|now left].
  right. rewrite metricNameAndLabelsQuery_world. eexists. eexists.
  split; [reflexivity|]. now left.
Qed.

(** X4.  A failure of the collaborators is passed on as it is: when the
    backend and the two label collaborators reject with [e], [process]
    rejects with [e], unless the query is a reserved form (the empty
    result) or a pattern has matched without its group. *)
Theorem collaborator_failure_propagates
        (lib : Imports) (datasource : PrometheusDatasource) (query : string)
        (range : TimeRange) (w : World) (e : JsError) :
  (forall url params, backend datasource url params = Rejected e) ->
  (forall selector labels, getSeriesLabels datasource selector labels = Rejected e) ->
  getTagKeys datasource range = Rejected e ->
  fst (process lib datasource query range w) = Rejected e
  \/ fst (process lib datasource query range w) = Untyped
  \/ (In query expressions /\ process lib datasource query range w = (Resolved [], w)).
Proof.
  intros Hbackend Hlabels Hkeys. unfold process. cbv zeta.
  destruct (String_match query (PrometheusLabelNamesRegexWithMatch lib)) as [m|].
  { destruct (group m 1); [left | right; left; reflexivity].
    unfold bind, settle. now rewrite Hlabels. }
  destruct (String_match query (PrometheusLabelNamesRegex lib)).
  { left. unfold settle. now rewrite Hkeys. }
  destruct (String_match query labelValuesRegex) as [m|].
  { destruct (group m 2) as [label|]; [left | right; left; reflexivity].
    destruct (truthy (group m 1)); unfold labelValuesQuery, bind, metadataRequest;
      match goal with
      | |- context [if ?b then _ else _] => destruct b
      end; now rewrite Hbackend. }
  destruct (String_match query (PrometheusMetricNamesRegex lib)) as [m|].
  { destruct (group m 1) as [pattern|]; [left | right; left; reflexivity].
    unfold metricNameQuery, bind, metadataRequest. now rewrite Hbackend. }
  destruct (String_match query (PrometheusQueryResultRegex lib)) as [m|].
  { destruct (group m 1) as [q|]; [left | right; left; reflexivity].
    unfold queryResultQuery, bind, metadataRequest. now rewrite Hbackend. }
  destruct (existsb (String.eqb query) expressions) eqn:Hres; cbn [negb].
  - right. right. split; [|reflexivity].
    apply existsb_exists in Hres as (x & Hin & Heq).
    apply String.eqb_eq in Heq. now subst x.
  - left. unfold metricNameAndLabelsQuery, bind, metadataRequest. now rewrite Hbackend.
Qed.

Lemma collaborator_failure_propagates_witness :
  fst (process specified
         {| backend := fun _ _ => Rejected (Thrown "502");
            hasLabelsMatchAPISupport := true;
            getSeriesLabels := fun _ _ => Rejected (Thrown "502");
            getTagKeys := fun _ => Rejected (Thrown "502");
            getOriginalMetricName := fun _ => "" |}
         "metrics(up)" example_range empty_world)
  = Rejected (Thrown "502").
Proof.
  destruct (collaborator_failure_propagates specified
              {| backend := fun _ _ => Rejected (Thrown "502");
                 hasLabelsMatchAPISupport := true;
                 getSeriesLabels := fun _ _ => Rejected (Thrown "502");
                 getTagKeys := fun _ => Rejected (Thrown "502");
                 getOriginalMetricName := fun _ => "" |}
              "metrics(up)" example_range empty_world (Thrown "502")
              (fun _ _ => eq_refl) (fun _ _ => eq_refl) eq_refl)
    as [H | [H | [_ H]]].
  - exact H.
  - discriminate H.
  - discriminate H.
Defined.

(** X5.  A filter that is not a pattern makes [metricNameQuery] reject with
    a [SyntaxError] as soon as the answer holds a name; on an answer without
    names the filter is never compiled and the result is empty. *)
Theorem metric_names_bad_pattern
        (lib : Imports) (datasource : PrometheusDatasource) (range : TimeRange)
        (metricFilterPattern : string) (names : list string) (w : World) :
  RegExp_new lib metricFilterPattern = None ->
  backend datasource "/api/v1/label/__name__/values" (time_window lib range)
  = Resolved (DStrings names) ->
  fst (metricNameQuery lib datasource range metricFilterPattern w)
  = match names with
    | [] => Resolved []
    | _ :: _ => Rejected SyntaxError
    end.
Proof.
  intros Hnew Hanswer.
  unfold metricNameQuery, bind at 1, metadataRequest.
  unfold time_window in Hanswer. rewrite Hanswer.
  destruct names as [|name names]; [reflexivity|].
  cbn [filter_array]. unfold bind. now rewrite Hnew.
Qed.

Lemma metric_names_bad_pattern_witness :
  RegExp_new specified "(" = None
  /\ fst (metricNameQuery specified (answering false (Resolved (DStrings ["up"])))
            example_range "(" empty_world) = Rejected SyntaxError
  /\ fst (metricNameQuery specified (answering false (Resolved (DStrings [])))
            example_range "(" empty_world) = Resolved [].
Proof.
  split; [reflexivity|]. split.
  - now rewrite (metric_names_bad_pattern specified
                   (answering false (Resolved (DStrings ["up"]))) example_range "("
                   ["up"] empty_world eq_refl eq_refl).
  - now rewrite (metric_names_bad_pattern specified
                   (answering false (Resolved (DStrings []))) example_range "("
                   [] empty_world eq_refl eq_refl).
Defined.

(** ** The rules after the label values *)

(** X6.  A query that no pattern matches and that is not a reserved form is
    sent as it is, as [match[]] with the window, to [/api/v1/series]; every
    series of the answer becomes one expandable item whose text is the name
    the data source gives the series, in the order of the answer. *)
Theorem free_form_selector
        (lib : Imports) (datasource : PrometheusDatasource) (query : string)
        (range : TimeRange) (series : list JsObject) (w : World) :
  String_match query (PrometheusLabelNamesRegexWithMatch lib) = None ->
  String_match query (PrometheusLabelNamesRegex lib) = None ->
  String_match query labelValuesRegex = None ->
  String_match query (PrometheusMetricNamesRegex lib) = None ->
  String_match query (PrometheusQueryResultRegex lib) = None ->
  ~ In query expressions ->
  backend datasource "/api/v1/series" (("match[]", query) :: time_window lib range)
  = Resolved (DSeries series) ->
  process lib datasource query range w
  = (Resolved
       (List.map
          (fun labels => {| text := getOriginalMetricName datasource labels;
                            expandable := Some true |})
          series),
     after_request w "/api/v1/series" (("match[]", query) :: time_window lib range)).
Proof.
  intros Hwm Hln Hlv Hmn Hqr Hfree Hanswer.
  assert (existsb (String.eqb query) expressions = false) as Hres.
  { destruct (existsb (String.eqb query) expressions) eqn:E; [|reflexivity].
    apply existsb_exists in E as (x & Hin & Heq).
    apply String.eqb_eq in Heq. subst x. contradiction. }
  unfold process. cbv zeta. rewrite Hwm, Hln, Hlv, Hmn, Hqr, Hres. cbn [negb].
  unfold metricNameAndLabelsQuery, bind, metadataRequest, after_request.
  unfold time_window in Hanswer. now rewrite Hanswer.
Qed.

Lemma free_form_selector_witness :
  ~ In " label_values(up)" expressions
  /\ process specified
       (answering false (Resolved (DSeries [[("__name__", "up"); ("job", "a")]])))
       " label_values(up)" example_range empty_world
     = (Resolved [ {| text := "up"; expandable := Some true |} ],
        after_request empty_world "/api/v1/series"
          [("match[]", " label_values(up)"); ("start", "10"); ("end", "12")]).
Proof.
  assert (~ In " label_values(up)" expressions) as Hfree.
  { intros [H | [H | [H | []]]]; discriminate H. }
  split; [exact Hfree|].
  now rewrite (free_form_selector specified
                 (answering false
                    (Resolved (DSeries [[("__name__", "up"); ("job", "a")]])))
                 " label_values(up)" example_range
                 [[("__name__", "up"); ("job", "a")]] empty_world
                 eq_refl eq_refl eq_refl eq_refl eq_refl Hfree eq_refl).
Defined.

(** X7.  After the rules of the label names and of the label values have
    failed, the pattern of [metrics] is tried before the pattern of
    [query_result]: a match of the first resolves by [metricNameQuery] on
    its group whatever the second makes of the query, and a match of the
    second resolves by [queryResultQuery] only when the first has failed. *)
Theorem later_rules_in_order
        (lib : Imports) (datasource : PrometheusDatasource) (query : string)
        (range : TimeRange) (w : World) :
  String_match query (PrometheusLabelNamesRegexWithMatch lib) = None ->
  String_match query (PrometheusLabelNamesRegex lib) = None ->
  String_match query labelValuesRegex = None ->
  (forall m pattern,
      String_match query (PrometheusMetricNamesRegex lib) = Some m ->
      group m 1 = Some pattern ->
      process lib datasource query range w
      = metricNameQuery lib datasource range pattern w)
  /\ (forall m q,
         String_match query (PrometheusMetricNamesRegex lib) = None ->
         String_match query (PrometheusQueryResultRegex lib) = Some m ->
         group m 1 = Some q ->
         process lib datasource query range w = queryResultQuery lib datasource q w).
Proof.
  intros Hwm Hln Hlv. split.
  - intros m pattern Hmn Hg. unfold process. cbv zeta.
    now rewrite Hwm, Hln, Hlv, Hmn, Hg.
  - intros m q Hmn Hqr Hg. unfold process. cbv zeta.
    now rewrite Hwm, Hln, Hlv, Hmn, Hqr, Hg.
Qed.

Lemma later_rules_in_order_witness :
  process specified (answering false (Resolved (DStrings ["down"; "up"])))
          "metrics(up)" example_range empty_world
  = metricNameQuery specified (answering false (Resolved (DStrings ["down"; "up"])))
      example_range "up" empty_world
  /\ process specified (answering false (Resolved up_vector))
             "query_result(metrics(up))" example_range up_world
     = queryResultQuery specified (answering false (Resolved up_vector)) "metrics(up)" up_world.
Proof.
  split.
  - destruct (later_rules_in_order specified
                (answering false (Resolved (DStrings ["down"; "up"])))
                "metrics(up)" example_range empty_world
                eq_refl eq_refl eq_refl) as [H _].
    now apply (H [Some "metrics(up)"; Some "up"]).
  - destruct (later_rules_in_order specified (answering false (Resolved up_vector))
                "query_result(metrics(up))" example_range up_world
                eq_refl eq_refl eq_refl) as [_ H].
    now apply (H [Some "query_result(metrics(up))"; Some "metrics(up)"]).
Defined.

(** ** The instant query, further *)

(** X8.  An instant query answered by a scalar or a string resolves to one
    item that is not expandable: its text is the second element of the
    pair, or the empty text when that element is missing; the time of the
    pair is not read, the heap is left as it is, and the request carries the
    query alone. *)
Theorem scalar_or_string_item (lib : Imports)
        (datasource : PrometheusDatasource) (query resultType : string)
        (unix_time : float) (v : option string) (w : World) :
  resultType = "scalar" \/ resultType = "string" ->
  backend datasource "/api/v1/query" [("query", query)]
  = Resolved (DQuery resultType (PValue unix_time v)) ->
  queryResultQuery lib datasource query w
  = (Resolved [ {| text := match v with Some s => s | None => "" end;
                   expandable := Some false |} ],
     after_request w "/api/v1/query" [("query", query)]).
Proof.
  intros Htype Hanswer. unfold queryResultQuery, bind, metadataRequest.
  rewrite Hanswer. destruct Htype as [-> | ->]; now destruct v.
Qed.

Lemma scalar_or_string_item_witness :
  ("scalar" = "scalar" \/ "scalar" = "string")
  /\ fst (queryResultQuery specified
            (answering false (Resolved (DQuery "scalar" (PValue 1000%float (Some "42")))))
            "42" empty_world)
     = Resolved [ {| text := "42"; expandable := Some false |} ]
  /\ fst (queryResultQuery specified
            (answering false (Resolved (DQuery "string" (PValue 1000%float None))))
            "x" empty_world)
     = Resolved [ {| text := ""; expandable := Some false |} ].
Proof.
  assert ("scalar" = "scalar" \/ "scalar" = "string") as Hs by now left.
  split; [exact Hs|]. split.
  - now rewrite (scalar_or_string_item specified
                   (answering false (Resolved (DQuery "scalar" (PValue 1000%float (Some "42")))))
                   "42" "scalar" 1000%float (Some "42") empty_world Hs eq_refl).
  - now rewrite (scalar_or_string_item specified
                   (answering false (Resolved (DQuery "string" (PValue 1000%float None))))
                   "x" "string" 1000%float None empty_world (or_intror eq_refl) eq_refl).
Defined.

Lemma map_array_vectorItem_stop (lib : Imports) (before : list Sample) (s : Sample)
      (after : list Sample) (w : World) :
  (forall s', In s' before -> heap w !! metric s' <> None) ->
  heap w !! metric s = None ->
  map_array (vectorItem lib) (before ++ s :: after) w
  = (Rejected TypeError,
     {| heap := strip_names before (heap w); sent := sent w |}).
Proof.
  revert w. induction before as [|a before IH]; intros w Halloc Hs.
  - cbn [app map_array]. unfold bind at 1. unfold vectorItem at 1. rewrite Hs.
    now destruct w.
  - destruct (heap w !! metric a) as [labels|] eqn:Ha.
    2:{ exfalso. apply (Halloc a); [now left | exact Ha]. }
    assert (metric a <> metric s) as Hne by (intros Heq; congruence).
    cbn [app map_array]. unfold bind at 1. rewrite (vectorItem_alloc lib a w labels Ha).
    unfold bind at 1. rewrite IH.
    + change (strip_names (a :: before) (heap w))
        with (strip_names before
                (<[metric a := obj_delete (labels_of (heap w) a) "__name__"]> (heap w))).
      unfold labels_of. now rewrite Ha.
    + intros s' Hin. cbn [heap].
      destruct (decide (metric a = metric s')) as [<-|Hne'].
      * now rewrite lookup_insert_eq.
      * rewrite lookup_insert_ne by exact Hne'. apply Halloc. now right.
    + cbn [heap]. now rewrite lookup_insert_ne.
Qed.

(** X9.  A sample of a vector that has no label set makes the query reject
    with a [TypeError] and no item is returned; the label sets of the
    samples before it have lost [__name__] all the same, and those of the
    samples after it are as they were. *)
Theorem vector_sample_without_labels (lib : Imports)
        (datasource : PrometheusDatasource) (query : string)
        (before : list Sample) (s : Sample) (after : list Sample) (w : World) :
  backend datasource "/api/v1/query" [("query", query)]
  = Resolved (DQuery "vector" (PSamples (before ++ s :: after))) ->
  (forall s', In s' before -> heap w !! metric s' <> None) ->
  heap w !! metric s = None ->
  fst (queryResultQuery lib datasource query w) = Rejected TypeError
  /\ (forall s', In s' before ->
        exists labels,
          heap w !! metric s' = Some labels
          /\ heap (snd (queryResultQuery lib datasource query w)) !! metric s'
             = Some (obj_delete labels "__name__"))
  /\ (forall l, ~ In l (List.map metric before) ->
        heap (snd (queryResultQuery lib datasource query w)) !! l = heap w !! l).
Proof.
  intros Hanswer Halloc Hs.
  unfold queryResultQuery, bind, metadataRequest. rewrite Hanswer.
  change (String.eqb "vector" "scalar" || String.eqb "vector" "string") with false.
  change (String.eqb "vector" "vector") with true. cbv iota.
  rewrite (map_array_vectorItem_stop lib before s after
             {| heap := heap w;
                sent := sent w ++ [("/api/v1/query", [("query", query)])] |}
             Halloc Hs).
  cbn [fst snd heap]. split; [reflexivity|]. split.
  - intros s' Hin. destruct (heap w !! metric s') as [labels|] eqn:Hs'.
    2:{ now elim (Halloc s' Hin). }
    exists labels. split; [reflexivity|].
    apply strip_names_lookup; [now apply in_map | exact Hs'].
  - intros l Hl. now apply strip_names_frame.
Qed.

Lemma vector_sample_without_labels_witness :
  heap up_world !! 1%nat = None
  /\ queryResultQuery specified
       (answering false
          (Resolved (DQuery "vector"
                       (PSamples [ {| metric := 0; value := (1000%float, "1") |};
                                   {| metric := 1; value := (1000%float, "2") |} ]))))
       "up" up_world
     = (Rejected TypeError,
        {| heap := {[ 0%nat := [("instance", "a")] ]};
           sent := [("/api/v1/query", [("query", "up")])] |}).
Proof.
  split; [reflexivity|].
  destruct (vector_sample_without_labels specified
              (answering false
                 (Resolved (DQuery "vector"
                              (PSamples [ {| metric := 0; value := (1000%float, "1") |};
                                          {| metric := 1; value := (1000%float, "2") |} ]))))
              "up" [ {| metric := 0; value := (1000%float, "1") |} ]
              {| metric := 1; value := (1000%float, "2") |} [] up_world eq_refl)
    as (Hfst & _ & _).
  - intros s' [<-|[]]. discriminate.
  - reflexivity.
  - rewrite (surjective_pairing (queryResultQuery _ _ _ _)), Hfst. reflexivity.
Defined.

Lemma length_append (a b : string) :
  String.length (a +:+ b) = (String.length a + String.length b)%nat.
Proof.
  induction a as [|c a IH]; [reflexivity|].
  change (S (String.length (a +:+ b)) = S (String.length a + String.length b)).
  now rewrite IH.
Qed.

Lemma append_not_neutral (a t : string) : a <> "" -> a +:+ t <> t.
Proof.
  intros Ha Heq. apply (f_equal String.length) in Heq.
  rewrite length_append in Heq. destruct a; [now elim Ha | simpl in Heq; lia].
Qed.

(** The text of a sample is the value of [__name__] before the text of the
    label set without [__name__]. *)
Lemma vector_text_name (lib : Imports) (labels : JsObject) (v : float * string) :
  vector_text lib labels v
  = or_empty (obj_get labels "__name__")
    +:+ vector_text lib (obj_delete labels "__name__") v.
Proof.
  unfold vector_text. rewrite obj_delete_get.
  change (List.filter (fun kv => negb (String.eqb (fst kv) "__name__")) ?o)
    with (obj_delete o "__name__").
  now rewrite obj_delete_idem.
Qed.

(** X10.  Resolving the same instant vector a second time, on the objects
    the first run has left, gives for every sample the text of the first
    run without the value of [__name__] in front, since the label sets have
    lost it: the two results are the same when no sample had a name that is
    not empty, and differ as soon as one had. *)
Theorem vector_second_run
        (lib : Imports) (datasource : PrometheusDatasource) (query : string)
        (samples : list Sample) (w : World) :
  backend datasource "/api/v1/query" [("query", query)]
  = Resolved (DQuery "vector" (PSamples samples)) ->
  List.NoDup (List.map metric samples) ->
  (forall s, In s samples -> heap w !! metric s <> None) ->
  fst (queryResultQuery lib datasource query w)
  = Resolved
      (List.map
         (fun s =>
            {| text :=
                 or_empty (obj_get (labels_of (heap w) s) "__name__")
                 +:+ vector_text lib (obj_delete (labels_of (heap w) s) "__name__")
                       (value s);
               expandable := Some true |})
         samples)
  /\ fst (queryResultQuery lib datasource query
            (snd (queryResultQuery lib datasource query w)))
     = Resolved
         (List.map
            (fun s =>
               {| text :=
                    vector_text lib (obj_delete (labels_of (heap w) s) "__name__")
                      (value s);
                  expandable := Some true |})
            samples)
  /\ ((forall s, In s samples -> or_empty (obj_get (labels_of (heap w) s) "__name__") = "") ->
      fst (queryResultQuery lib datasource query
             (snd (queryResultQuery lib datasource query w)))
      = fst (queryResultQuery lib datasource query w))
  /\ ((exists s, In s samples
                 /\ or_empty (obj_get (labels_of (heap w) s) "__name__") <> "") ->
      fst (queryResultQuery lib datasource query
             (snd (queryResultQuery lib datasource query w)))
      <> fst (queryResultQuery lib datasource query w)).
Proof.
  intros Hanswer Hdistinct Halloc.
  assert (forall s, In s samples ->
            heap (snd (queryResultQuery lib datasource query w)) !! metric s
            = Some (obj_delete (labels_of (heap w) s) "__name__")) as Hafter.
  { intros s Hin. unfold queryResultQuery, bind, metadataRequest. rewrite Hanswer.
    change (String.eqb "vector" "scalar" || String.eqb "vector" "string") with false.
    change (String.eqb "vector" "vector") with true. cbv iota.
    destruct (map_array_vectorItem lib samples
                {| heap := heap w;
                   sent := sent w ++ [("/api/v1/query", [("query", query)])] |})
      as (items & -> & _); [exact Halloc|].
    cbn [snd heap]. destruct (heap w !! metric s) as [labels|] eqn:Hs.
    2:{ now elim (Halloc s Hin). }
    unfold labels_of. rewrite Hs.
    apply strip_names_lookup; [now apply in_map | exact Hs]. }
  assert (fst (queryResultQuery lib datasource query w)
          = Resolved
              (List.map
                 (fun s =>
                    {| text :=
                         or_empty (obj_get (labels_of (heap w) s) "__name__")
                         +:+ vector_text lib
                               (obj_delete (labels_of (heap w) s) "__name__") (value s);
                       expandable := Some true |})
                 samples)) as Hfirst.
  { unfold queryResultQuery, bind, metadataRequest. rewrite Hanswer.
    change (String.eqb "vector" "scalar" || String.eqb "vector" "string") with false.
    change (String.eqb "vector" "vector") with true. cbv iota.
    rewrite (map_array_vectorItem_distinct lib samples
               {| heap := heap w;
                  sent := sent w ++ [("/api/v1/query", [("query", query)])] |}
               Hdistinct Halloc).
    apply f_equal, List.map_ext. intros s. cbn [heap].
    now rewrite vector_text_name. }
  assert (fst (queryResultQuery lib datasource query
                 (snd (queryResultQuery lib datasource query w)))
          = Resolved
              (List.map
                 (fun s =>
                    {| text :=
                         vector_text lib
                           (obj_delete (labels_of (heap w) s) "__name__") (value s);
                       expandable := Some true |})
                 samples)) as Hsecond.
  { set (w1 := snd (queryResultQuery lib datasource query w)) in *.
    unfold queryResultQuery at 1. unfold bind, metadataRequest. rewrite Hanswer.
    change (String.eqb "vector" "scalar" || String.eqb "vector" "string") with false.
    change (String.eqb "vector" "vector") with true. cbv iota.
    rewrite (map_array_vectorItem_distinct lib samples
               {| heap := heap w1;
                  sent := sent w1 ++ [("/api/v1/query", [("query", query)])] |}
               Hdistinct).
    - apply f_equal, List.map_ext_in. intros s Hin. cbn [heap].
      unfold labels_of at 1. now rewrite (Hafter s Hin).
    - intros s Hin. cbn [heap]. now rewrite (Hafter s Hin). }
  split; [exact Hfirst|]. split; [exact Hsecond|].
  rewrite Hfirst, Hsecond. split.
  - intros Hnone. apply f_equal, List.map_ext_in. intros s Hin.
    now rewrite (Hnone s Hin).
  - intros (s & Hin & Hname) Heq. injection Heq as Heq.
    assert (forall l : list Sample, In s l ->
              List.map
                (fun s =>
                   {| text :=
                        vector_text lib
                          (obj_delete (labels_of (heap w) s) "__name__") (value s);
                      expandable := Some true |}) l
              = List.map
                  (fun s =>
                     {| text :=
                          or_empty (obj_get (labels_of (heap w) s) "__name__")
                          +:+ vector_text lib
                                (obj_delete (labels_of (heap w) s) "__name__")
                                (value s);
                        expandable := Some true |}) l ->
              False) as Hdiff.
    { clear - Hname. induction l as [|a l IH]; intros Hin; [contradiction|].
      cbn [List.map]. intros [= Ha Hl]. destruct Hin as [->|Hin].
      - symmetry in Ha. now apply append_not_neutral in Ha.
      - now apply IH. }
    exact (Hdiff samples Hin Heq).
Qed.

Lemma vector_second_run_witness :
  List.NoDup (List.map metric [ {| metric := 0; value := (1000%float, "1") |} ])
  /\ or_empty (obj_get (labels_of (heap up_world)
                          {| metric := 0; value := (1000%float, "1") |}) "__name__")
     <> ""
  /\ fst (queryResultQuery specified (answering false (Resolved up_vector)) "up" up_world)
     = Resolved
         [ {| text := "up{instance=" +:+ dquote +:+ "a" +:+ dquote +:+ "} 1 1000000";
              expandable := Some true |} ]
  /\ fst (queryResultQuery specified (answering false (Resolved up_vector)) "up"
            (snd (queryResultQuery specified (answering false (Resolved up_vector))
                    "up" up_world)))
     = Resolved
         [ {| text := "{instance=" +:+ dquote +:+ "a" +:+ dquote +:+ "} 1 1000000";
              expandable := Some true |} ].
Proof.
  assert (List.NoDup (List.map metric [ {| metric := 0; value := (1000%float, "1") |} ]))
    as Hdistinct.
  { repeat constructor. intros []. }
  split; [exact Hdistinct|]. split; [discriminate|].
  destruct (vector_second_run specified (answering false (Resolved up_vector)) "up"
              [ {| metric := 0; value := (1000%float, "1") |} ] up_world eq_refl
              Hdistinct) as (Hfirst & Hsecond & _ & _).
  - intros s [<-|[]]. discriminate.
  - rewrite Hfirst, Hsecond. split; reflexivity.
Defined.

Lemma map_array_vectorItem_items (lib : Imports) (samples : list Sample) (w : World)
      (items : list MetricFindValue) :
  fst (map_array (vectorItem lib) samples w) = Resolved items ->
  length items = length samples
  /\ Forall (fun item => expandable item = Some true) items.
Proof.
  revert w items. induction samples as [|s samples IH]; intros w items.
  - intros [= <-]. split; [reflexivity | constructor].
  - cbn [map_array]. unfold bind at 1. unfold vectorItem at 1.
    destruct (heap w !! metric s); [|discriminate].
    unfold bind at 1.
    match goal with
    | |- context [map_array (vectorItem lib) samples ?w1] =>
        specialize (IH w1);
        destruct (map_array (vectorItem lib) samples w1) as [[rest|e|] w2]
    end; try discriminate.
    intros [= <-]. destruct (IH rest eq_refl) as [Hlen Hall].
    split; [simpl; now rewrite Hlen | now constructor].
Qed.

(** X13.  A vector whose samples all have a label set resolves to one item
    for each sample, every one of them expandable, also when samples share
    a label set. *)
Theorem vector_one_item_per_sample (lib : Imports)
        (datasource : PrometheusDatasource) (query : string)
        (samples : list Sample) (w : World) :
  backend datasource "/api/v1/query" [("query", query)]
  = Resolved (DQuery "vector" (PSamples samples)) ->
  (forall s, In s samples -> heap w !! metric s <> None) ->
  exists items,
    fst (queryResultQuery lib datasource query w) = Resolved items
    /\ length items = length samples
    /\ Forall (fun item => expandable item = Some true) items.
Proof.
  intros Hanswer Halloc.
  unfold queryResultQuery, bind, metadataRequest. rewrite Hanswer.
  change (String.eqb "vector" "scalar" || String.eqb "vector" "string") with false.
  change (String.eqb "vector" "vector") with true. cbv iota.
  destruct (map_array_vectorItem lib samples
              {| heap := heap w;
                 sent := sent w ++ [("/api/v1/query", [("query", query)])] |})
    as (items & Hitems & _); [exact Halloc|].
  exists items. rewrite Hitems. split; [reflexivity|].
  apply (map_array_vectorItem_items lib samples
           {| heap := heap w;
              sent := sent w ++ [("/api/v1/query", [("query", query)])] |}).
  now rewrite Hitems.
Qed.

Lemma vector_one_item_per_sample_witness :
  heap up_world !! 0%nat <> None
  /\ fst (queryResultQuery specified
            (answering false
               (Resolved (DQuery "vector"
                            (PSamples [ {| metric := 0; value := (1000%float, "1") |};
                                        {| metric := 0; value := (2000%float, "2") |} ]))))
            "up" up_world)
     = Resolved
         [ {| text := "up{instance=" +:+ dquote +:+ "a" +:+ dquote +:+ "} 1 1000000";
              expandable := Some true |};
           {| text := "{instance=" +:+ dquote +:+ "a" +:+ dquote +:+ "} 2 2000000";
              expandable := Some true |} ].
Proof.
  assert (heap up_world !! 0%nat <> None) as Halloc by discriminate.
  split; [exact Halloc|].
  destruct (vector_one_item_per_sample specified
              (answering false
                 (Resolved (DQuery "vector"
                              (PSamples [ {| metric := 0; value := (1000%float, "1") |};
                                          {| metric := 0; value := (2000%float, "2") |} ]))))
              "up" [ {| metric := 0; value := (1000%float, "1") |};
                     {| metric := 0; value := (2000%float, "2") |} ] up_world eq_refl)
    as (items & Hitems & _ & _).
  - intros s [<-|[<-|[]]]; exact Halloc.
  - reflexivity.
Defined.

(** ** The dashboard row *)

Lemma clicks_step (n : nat) (c : DashboardRow.Component) (log : list DashboardRow.Event) :
  DashboardRow.clicks (S n) c log
  = DashboardRow.clicks n (fst (DashboardRow.toggle c log))
                        (snd (DashboardRow.toggle c log)).
Proof. reflexivity. Qed.

(** X11.  After [n] clicks on the title of a row made from a panel, the row
    shows collapsed exactly when the panel was collapsed and [n] is even, or
    was not and [n] is odd: the class of the row and the chevron follow
    that, and the dashboard has been told to toggle the row [n] times more,
    and nothing else. *)
Theorem row_after_clicks
        (replaceWithText : string -> list (string * string) -> string)
        (props_panel : PanelModel.t) (n : nat) (log : list DashboardRow.Event) :
  let c := fst (DashboardRow.clicks n (DashboardRow.constructor props_panel) log) in
  DashboardRow.collapsed (DashboardRow.state c)
  = xorb (PanelModel.collapsed props_panel) (Nat.odd n)
  /\ DashboardRow.classes (DashboardRow.render replaceWithText c)
     = (if xorb (PanelModel.collapsed props_panel) (Nat.odd n)
        then "dashboard-row dashboard-row--collapsed"
        else "dashboard-row")
  /\ DashboardRow.chevronClass (DashboardRow.render replaceWithText c)
     = (if xorb (PanelModel.collapsed props_panel) (Nat.odd n)
        then "fa fa-chevron-right"
        else "fa fa-chevron-down")
  /\ snd (DashboardRow.clicks n (DashboardRow.constructor props_panel) log)
     = log ++ repeat (DashboardRow.Call (DashboardRow.toggleRow props_panel)) n.
Proof.
  cbv zeta.
  assert (forall n c log,
             DashboardRow.panel c = props_panel ->
             DashboardRow.panel (fst (DashboardRow.clicks n c log)) = props_panel
             /\ DashboardRow.collapsed
                  (DashboardRow.state (fst (DashboardRow.clicks n c log)))
                = xorb (DashboardRow.collapsed (DashboardRow.state c)) (Nat.odd n)
             /\ snd (DashboardRow.clicks n c log)
                = log ++ repeat (DashboardRow.Call (DashboardRow.toggleRow props_panel)) n)
    as Hclicks.
  { clear. intros n. induction n as [|n IH]; intros c log Hp.
    - cbn. rewrite xorb_false_r, app_nil_r. auto.
    - rewrite clicks_step.
      destruct (IH (fst (DashboardRow.toggle c log)) (snd (DashboardRow.toggle c log)))
        as (Hpanel & Hstate & Hlog); [exact Hp|].
      split; [exact Hpanel|]. split.
      + rewrite Hstate. cbn [DashboardRow.toggle fst DashboardRow.state
                              DashboardRow.collapsed].
        rewrite Nat.odd_succ, <- Nat.negb_odd.
        destruct (DashboardRow.collapsed (DashboardRow.state c)), (Nat.odd n);
          reflexivity.
      + rewrite Hlog. cbn [DashboardRow.toggle snd]. rewrite Hp, <- app_assoc.
        reflexivity. }
  destruct (Hclicks n (DashboardRow.constructor props_panel) log eq_refl)
    as (_ & Hstate & Hlog).
  cbn [DashboardRow.constructor DashboardRow.state DashboardRow.collapsed] in Hstate.
  split; [exact Hstate|]. split; [|split; [|exact Hlog]].
  - unfold DashboardRow.render. cbn [DashboardRow.classes]. rewrite Hstate.
    now destruct (xorb (PanelModel.collapsed props_panel) (Nat.odd n)).
  - unfold DashboardRow.render. cbn [DashboardRow.chevronClass]. rewrite Hstate.
    now destruct (xorb (PanelModel.collapsed props_panel) (Nat.odd n)).
Qed.
